(** * monitor_autos: the aggregation / dedup / notify pipeline

    A shallow embedding of [monitor_autos.py]: the configuration lists, the
    search template file, the classifier ([text_contains_keywords] and the
    brand test of [run_once]), the SQLite table [seen] ([init_db], [is_seen],
    [mark_seen]), the gateway call ([send_whatsapp]), the site label, the
    parsers and [scrape_site], the placeholder substitution of the search
    templates, the audit log and the two loops of [run_once].

    Python [str] values are embedded as [string] and Python [int] values as
    [Z].  The two methods of [str] whose result depends on the Unicode tables,
    [str.lower] and [str.strip], are parameters of the development; the
    statements hold for every such pair of functions, and the facts of the
    two methods that a statement needs are its hypotheses. *)

From Stdlib Require Import ZArith List Bool Lia Ascii String DecimalString.
Import ListNotations.

Open Scope string_scope.
Open Scope Z_scope.

(** ** Python string primitives *)

Module PyStr.

(** Lower-casing of the ASCII letters: what [str.lower] does on a text of
    ASCII characters.  With [ascii_strip] below it is the instance at which
    the statements are run on the sample data, which is ASCII. *)
Definition ascii_lower_char (c : ascii) : ascii :=
  let n := nat_of_ascii c in
  if (Nat.leb 65 n && Nat.leb n 90)%bool then ascii_of_nat (n + 32) else c.

Fixpoint ascii_lower (s : string) : string :=
  match s with
  | EmptyString => EmptyString
  | String c s' => String (ascii_lower_char c) (ascii_lower s')
  end.

(** [s.startswith(p)]. *)
Fixpoint startswith (p s : string) : bool :=
  match p with
  | EmptyString => true
  | String a p' =>
      match s with
      | EmptyString => false
      | String b s' => (Ascii.eqb a b && startswith p' s')%bool
      end
  end.

(** [needle in hay]. *)
Fixpoint contains (needle hay : string) : bool :=
  (startswith needle hay
   || match hay with
      | EmptyString => false
      | String _ hay' => contains needle hay'
      end)%bool.

(** [s[:n]]. *)
Fixpoint take (n : nat) (s : string) : string :=
  match n, s with
  | S n', String c s' => String c (take n' s')
  | _, _ => EmptyString
  end.

(** [s.split(sep)[0]] for a one-character separator: the text before the
    first occurrence of [sep], the whole of [s] when there is none. *)
Fixpoint before (sep : ascii) (s : string) : string :=
  match s with
  | EmptyString => EmptyString
  | String c s' => if Ascii.eqb c sep then EmptyString else String c (before sep s')
  end.

(** [sep.join(parts)]. *)
Fixpoint join (sep : string) (parts : list string) : string :=
  match parts with
  | [] => EmptyString
  | [p] => p
  | p :: rest => p ++ sep ++ join sep rest
  end.

(** [str(n)] for an [int]. *)
Definition of_int (n : Z) : string := NilZero.string_of_int (Z.to_int n).

(** Truthiness of a [str]: [not s] is [True] exactly for the empty string. *)
Definition is_empty (s : string) : bool :=
  match s with EmptyString => true | _ => false end.

(** [c in s] for one character. *)
Fixpoint has_char (c : ascii) (s : string) : bool :=
  match s with
  | EmptyString => false
  | String d s' => (Ascii.eqb d c || has_char c s')%bool
  end.

(** The ASCII characters for which [c.isspace()] holds. *)
Definition is_ascii_space (c : ascii) : bool :=
  let n := nat_of_ascii c in
  ((Nat.leb 9 n && Nat.leb n 13) || (Nat.leb 28 n && Nat.leb n 32))%bool.

Fixpoint ascii_lstrip (s : string) : string :=
  match s with
  | EmptyString => EmptyString
  | String c s' => if is_ascii_space c then ascii_lstrip s' else s
  end.

Fixpoint ascii_rstrip (s : string) : string :=
  match s with
  | EmptyString => EmptyString
  | String c s' =>
      let r := ascii_rstrip s' in
      if (is_empty r && is_ascii_space c)%bool then EmptyString else String c r
  end.

(** Removal of the ASCII whitespace at both ends: what [str.strip] does on
    a text of ASCII characters. *)
Definition ascii_strip (s : string) : string := ascii_rstrip (ascii_lstrip s).

(** [s.replace(c, empty)] for one character [c]: every [c] is dropped. *)
Fixpoint remove_char (c : ascii) (s : string) : string :=
  match s with
  | EmptyString => EmptyString
  | String d s' => if Ascii.eqb d c then remove_char c s' else String d (remove_char c s')
  end.

(** [s[1:]]. *)
Definition tail (s : string) : string :=
  match s with
  | EmptyString => EmptyString
  | String _ s' => s'
  end.

(** [s.split(sep)] for a one-character separator: always at least one
    piece, one more than there are separators. *)
Fixpoint split (sep : ascii) (s : string) : list string :=
  match s with
  | EmptyString => [EmptyString]
  | String c s' =>
      if Ascii.eqb c sep then EmptyString :: split sep s'
      else
        match split sep s' with
        | [] => [String c EmptyString]
        | p :: ps => String c p :: ps
        end
  end.

(** [needle] occurs in [hay]: the relation that [contains] decides. *)
Definition Substring (needle hay : string) : Prop :=
  exists pre post, hay = pre ++ needle ++ post.

End PyStr.

(** ** The two parameters

    [str.lower] and [str.strip] as the program calls them. *)

Section Pipeline.

Variable lower : string -> string.

Variable strip : string -> string.


(** ** Configuration

    The module-level constants that [run_once] and [send_whatsapp] read.
    [parse_int] yields any Python [int], so the numeric settings are [Z]. *)

Record Config := {
  PHONE : string;
  CALLMEBOT_APIKEY : string;
  CALLMEBOT_STRIP_PLUS : bool;
  MAX_SEND_PER_RUN : Z;
  MIN_YEAR : Z;
  MAX_YEAR : Z;
  MIN_KM : Z;
  MAX_KM : Z;
  MIN_PRICE : Z;
  MAX_PRICE : Z;
  CAR_BRANDS_MODELS : list string;
  KEYWORDS : list string
}.

(** The environment after [load_dotenv]: what [os.getenv] returns. *)
Definition Env := string -> option string.

Definition get_env (env : Env) (name : string) (default : string) : string :=
  match env name with
  | Some value => if PyStr.is_empty value then default else value
  | None => default
  end.

(** [parse_list]: split on commas, strip whitespace, drop empties. *)
Definition parse_list (env : Env) (name : string) (default_list : list string) : list string :=
  let raw := get_env env name "" in
  if PyStr.is_empty raw then default_list
  else map strip
         (filter (fun item => negb (PyStr.is_empty (strip item)))
                 (PyStr.split "," raw)).



(** ** DB / caching: the table [seen]

    A row of [seen]; [row_link] is the PRIMARY KEY column.  The table is the
    list of its rows in insertion order. *)

Record Row := {
  row_link : string;
  row_title : string;
  row_site : string;
  row_price : string;
  row_first_seen : Z
}.

Definition DB := list Row.

(** [init_db]: [CREATE TABLE IF NOT EXISTS] on the database file, which is
    absent ([None]) or holds the table of an earlier run. *)
Definition init_db (file : option DB) : DB :=
  match file with
  | None => []
  | Some db => db
  end.

(** [SELECT 1 FROM seen WHERE link = ?] *)
Definition select_link (db : DB) (link : string) : option Row :=
  find (fun r => String.eqb (row_link r) link) db.

Definition is_seen (db : DB) (link : string) : bool :=
  match select_link db link with
  | Some _ => true
  | None => false
  end.

Definition new_row (link title site price : string) (now : Z) : Row :=
  {| row_link := link; row_title := title; row_site := site;
     row_price := price; row_first_seen := now |}.

(** [INSERT OR IGNORE INTO seen ...]: a row whose key is already in the table
    is dropped, any other row is appended.  [now] is the value that
    [datetime.now(timezone.utc)] returns at the call. *)
Definition mark_seen (db : DB) (link title site price : string) (now : Z) : DB :=
  if is_seen db link then db
  else (db ++ [new_row link title site price now])%list.

(** A sequence of [mark_seen] calls, one per row of [calls]. *)
Definition mark_all (db : DB) (calls : list Row) : DB :=
  fold_left (fun d o => mark_seen d (row_link o) (row_title o) (row_site o) (row_price o)
                          (row_first_seen o)) calls db.

(** No two rows share a key. *)
Fixpoint pk_unique (db : DB) : bool :=
  match db with
  | [] => true
  | r :: rest => (negb (is_seen rest (row_link r)) && pk_unique rest)%bool
  end.

(** ** Utilities *)

(** The loop [for k in keywords: if k.lower() in t: return True]. *)
Fixpoint any_lower_in (t : string) (phrases : list string) : bool :=
  match phrases with
  | [] => false
  | k :: rest => if PyStr.contains (lower k) t then true else any_lower_in t rest
  end.

Definition text_contains_keywords (text : string) (keywords : list string) : bool :=
  if PyStr.is_empty text then false
  else any_lower_in (lower text) keywords.

(** The hostname of [detect_site_label]: the third piece of the URL cut at
    its slashes when the URL holds a double slash, the URL itself otherwise.
    [None] stands for the IndexError of an index out of range. *)
Definition hostname_of (url : string) : option string :=
  if PyStr.contains "//" url then nth_error (PyStr.split "/" url) 2 else Some url.

(** The chain of tests of [detect_site_label] on the hostname. *)
Definition label_of_hostname (hostname : string) : string :=
  if PyStr.contains "mobile.de" hostname then "mobile.de"
  else if PyStr.contains "autoscout24" hostname then "autoscout24"
  else if PyStr.contains "willhaben" hostname then "willhaben"
  else if PyStr.contains "leboncoin" hostname then "leboncoin"
  else if PyStr.contains "finn.no" hostname then "finn.no"
  else if PyStr.contains "blocket" hostname then "blocket"
  else hostname.

Definition detect_site_label (url : string) : option string :=
  option_map label_of_hostname (hostname_of url).

Definition known_labels : list string :=
  ["mobile.de"; "autoscout24"; "willhaben"; "leboncoin"; "finn.no"; "blocket"].

(** ** WhatsApp via CallMeBot *)

Record Response := {
  status_code : Z;
  text : string
}.

(** The query parameters of the request. *)
Record Payload := {
  pl_phone : string;
  pl_text : string;
  pl_apikey : string
}.

(** What [requests.get] does with a payload: [None] when it raises (timeout,
    network error), the response otherwise. *)
Definition Gateway := Payload -> option Response.

Definition phone_param (cfg : Config) : string :=
  let p := PyStr.remove_char " " (strip (PHONE cfg)) in
  if (CALLMEBOT_STRIP_PLUS cfg && PyStr.startswith "+" p)%bool then PyStr.tail p else p.

Definition payload (cfg : Config) (message : string) : Payload :=
  {| pl_phone := phone_param cfg; pl_text := message; pl_apikey := CALLMEBOT_APIKEY cfg |}.

Definition send_whatsapp (cfg : Config) (gw : Gateway) (message : string) : bool :=
  if (PyStr.is_empty (CALLMEBOT_APIKEY cfg) || PyStr.is_empty (PHONE cfg))%bool then false
  else
    match gw (payload cfg message) with
    | None => false
    | Some r =>
        let body_snip := PyStr.take 300 (text r) in
        if status_code r =? 200 then
          if (PyStr.contains "APIKey is invalid" body_snip
              || PyStr.contains "error" (lower body_snip))%bool
          then false
          else true
        else false
    end.

(** The error markers of the gateway, looked for in a whole text. *)
Definition has_error_marker (body : string) : bool :=
  (PyStr.contains "APIKey is invalid" body || PyStr.contains "error" (lower body))%bool.

(** ** Search templates: [template.format] on the keyword arguments *)

Inductive value :=
| VInt (n : Z)
| VStr (s : string).

(** [format(v, spec)] for an empty [spec], which is [str(v)] for an [int]
    and for a [str]. *)
Definition str_of_value (v : value) : string :=
  match v with
  | VInt n => PyStr.of_int n
  | VStr s => s
  end.

(** The [kw] of [run_once]: the first three keywords joined by a plus sign,
    the empty string when there is no keyword. *)
Definition kw_param (cfg : Config) : string :=
  match KEYWORDS cfg with
  | [] => ""
  | _ => PyStr.join "+" (firstn 3 (KEYWORDS cfg))
  end.

Definition format_kwargs (cfg : Config) : list (string * value) :=
  [ ("year", VInt (MIN_YEAR cfg));
    ("min_year", VInt (MIN_YEAR cfg));
    ("max_year", VInt (MAX_YEAR cfg));
    ("km", VInt (MAX_KM cfg));
    ("min_km", VInt (MIN_KM cfg));
    ("max_km", VInt (MAX_KM cfg));
    ("price", VInt (MAX_PRICE cfg));
    ("min_price", VInt (MIN_PRICE cfg));
    ("max_price", VInt (MAX_PRICE cfg));
    ("kw", VStr (kw_param cfg)) ].

Fixpoint kwargs_get (key : string) (kwargs : list (string * value)) : option value :=
  match kwargs with
  | [] => None
  | (k, v) :: rest => if String.eqb k key then Some v else kwargs_get key rest
  end.

(** The part of a field name before its first ['.'] or ['[']: the key that
    [str.format] looks up. *)
Fixpoint first_part (name : string) : string :=
  match name with
  | EmptyString => EmptyString
  | String c name' =>
      if (Ascii.eqb c "." || Ascii.eqb c "[")%bool then EmptyString
      else String c (first_part name')
  end.

(** Where the scanner of [str.format] stands: in literal text, in a field
    name (inside a bracketed index or not), after the ['!'] of a conversion,
    after the conversion character, or in a format spec at a brace depth. *)
Inductive mode :=
| InText
| InName (name : string) (bracket : bool)
| AfterBang (name : string)
| AfterConv (name : string) (conv : ascii)
| InSpec (name : string) (conv : option ascii) (spec : string) (depth : nat).

Definition snoc (s : string) (c : ascii) : string := s ++ String c EmptyString.

Section Format.

(** What Python makes of a replacement field that is more than a bare key:
    attribute or index access, a conversion, a format spec (with its nested
    fields).  [None] when it raises.  The embedding leaves this part of
    [str.format] open; a bare [{key}] never reaches it. *)
Variable extended_field :
  list (string * value) -> string -> option ascii -> string -> option string.

Variable kwargs : list (string * value).

(** One replacement field.  The key is looked up first: a missing key
    (KeyError), an empty or a numeric one (IndexError: there are no
    positional arguments) raises. *)
Definition render_field (name : string) (conv : option ascii) (spec : string) : option string :=
  match kwargs_get (first_part name) kwargs with
  | None => None
  | Some v =>
      match conv with
      | None =>
          if (String.eqb (first_part name) name && PyStr.is_empty spec)%bool
          then Some (str_of_value v)
          else extended_field kwargs name conv spec
      | Some _ => extended_field kwargs name conv spec
      end
  end.

(** The scanner: [out] is the text produced so far; [None] when [format]
    raises (a single brace, an unclosed field, a field that raises). *)
Fixpoint scan (m : mode) (out : string) (s : string) : option string :=
  match s with
  | EmptyString =>
      match m with
      | InText => Some out
      | _ => None
      end
  | String c rest =>
      match m with
      | InText =>
          if Ascii.eqb c "{" then
            match rest with
            | EmptyString => None
            | String d rest' =>
                if Ascii.eqb d "{" then scan InText (snoc out "{") rest'
                else scan (InName EmptyString false) out rest
            end
          else if Ascii.eqb c "}" then
            match rest with
            | EmptyString => None
            | String d rest' =>
                if Ascii.eqb d "}" then scan InText (snoc out "}") rest'
                else None
            end
          else scan InText (snoc out c) rest
      | InName name true =>
          scan (InName (snoc name c) (negb (Ascii.eqb c "]"))) out rest
      | InName name false =>
          if Ascii.eqb c "{" then None
          else if Ascii.eqb c "[" then scan (InName (snoc name c) true) out rest
          else if Ascii.eqb c "}" then
            match render_field name None EmptyString with
            | None => None
            | Some r => scan InText (out ++ r) rest
            end
          else if Ascii.eqb c ":" then scan (InSpec name None EmptyString 1) out rest
          else if Ascii.eqb c "!" then scan (AfterBang name) out rest
          else scan (InName (snoc name c) false) out rest
      | AfterBang name => scan (AfterConv name c) out rest
      | AfterConv name conv =>
          if Ascii.eqb c "}" then
            match render_field name (Some conv) EmptyString with
            | None => None
            | Some r => scan InText (out ++ r) rest
            end
          else if Ascii.eqb c ":" then scan (InSpec name (Some conv) EmptyString 1) out rest
          else None
      | InSpec name conv spec depth =>
          if Ascii.eqb c "{" then scan (InSpec name conv (snoc spec c) (S depth)) out rest
          else if Ascii.eqb c "}" then
            match depth with
            | O => None
            | S O =>
                match render_field name conv spec with
                | None => None
                | Some r => scan InText (out ++ r) rest
                end
            | S d => scan (InSpec name conv (snoc spec c) d) out rest
            end
          else scan (InSpec name conv (snoc spec c) depth) out rest
      end
  end.

End Format.

Definition ExtendedField :=
  list (string * value) -> string -> option ascii -> string -> option string.

(** [template.format] on [format_kwargs], [None] when it raises. *)
Definition format_template (ext : ExtendedField) (cfg : Config) (template : string) : option string :=
  scan ext (format_kwargs cfg) InText EmptyString template.

(** The [try] / [except Exception] around it: [url = template] on any error. *)
Definition resolve_url (ext : ExtendedField) (cfg : Config) (template : string) : string :=
  match format_template ext cfg template with
  | Some url => url
  | None => template
  end.

(** ** Main: [run_once] *)

(** One tuple of [scrape_site]: [(site, title, link, price, desc)].  The
    link comes from [get_attribute], which gives [None] for a missing
    attribute. *)
Record Card := {
  card_site : string;
  card_title : string;
  card_link : option string;
  card_price : string;
  card_desc : string
}.

(** ** Parsers

    The rendered page as the driver shows it.  An element answers three
    questions, each of which may raise ([None]): its text, an attribute
    (absent: [Some None]) and its first descendant for a locator. *)
Inductive By := CSS_SELECTOR | TAG_NAME.

Unset Elimination Schemes.
Inductive Element :=
| mk_element (text : option string)
             (get_attribute : string -> option (option string))
             (find_element : By -> string -> option Element).
Set Elimination Schemes.

Definition el_text (e : Element) : option string :=
  match e with mk_element t _ _ => t end.

Definition el_attribute (e : Element) (name : string) : option (option string) :=
  match e with mk_element _ a _ => a name end.

Definition el_find (e : Element) (by_ : By) (value : string) : option Element :=
  match e with mk_element _ _ f => f by_ value end.

(** [try: x = elem.find_element(...).text / except Exception: x = empty] *)
Definition text_or_empty (found : option Element) : string :=
  match found with
  | Some e => match el_text e with Some t => t | None => "" end
  | None => ""
  end.

(** [try: link = elem.find_element(...).get_attribute(href) / except
    Exception: link = empty] *)
Definition href_or_empty (found : option Element) : option string :=
  match found with
  | Some e => match el_attribute e "href" with Some v => v | None => Some "" end
  | None => Some ""
  end.

(** What a parser returns: [(title, link, price, desc)]; [None] when it
    raises, which only the reading of the text of the element itself does. *)
Definition Parsed := (string * option string * string * string)%type.

Definition parse_mobile_listing (elem : Element) : option Parsed :=
  let title := text_or_empty (el_find elem CSS_SELECTOR "h2") in
  let link := href_or_empty (el_find elem CSS_SELECTOR "a") in
  let price := text_or_empty (el_find elem CSS_SELECTOR ".price-block") in
  match el_text elem with
  | Some desc => Some (title, link, price, desc)
  | None => None
  end.

Definition parse_autoscout_listing (elem : Element) : option Parsed :=
  let title := text_or_empty (el_find elem CSS_SELECTOR "h2") in
  let link := href_or_empty (el_find elem TAG_NAME "a") in
  let price := text_or_empty (el_find elem CSS_SELECTOR "p[data-testid='price-label']") in
  match el_text elem with
  | Some desc => Some (title, link, price, desc)
  | None => None
  end.

(** [elem.text[:100] if elem.text else empty]; [None] when [elem.text]
    raises. *)
Definition text_head (elem : Element) : option string :=
  match el_text elem with
  | Some t => Some (if PyStr.is_empty t then "" else PyStr.take 100 t)
  | None => None
  end.

Definition parse_generic_listing (elem : Element) : option Parsed :=
  let tried : option (option string * string) :=
    match el_find elem TAG_NAME "a" with
    | None => None
    | Some a =>
        match el_attribute a "href" with
        | None => None
        | Some link =>
            match el_text a with
            | None => None
            | Some a_text =>
                if PyStr.is_empty a_text
                then match text_head elem with
                     | Some h => Some (link, h)
                     | None => None
                     end
                else Some (link, a_text)
            end
        end
    end in
  let link_title : option (option string * string) :=
    match tried with
    | Some lt => Some lt
    | None =>
        match text_head elem with
        | Some h => Some (Some "", h)
        | None => None
        end
    end in
  match link_title with
  | None => None
  | Some (link, title) =>
      match el_text elem with
      | Some desc => Some (title, link, "", desc)
      | None => None
      end
  end.

(** ** Core scraping *)

(** [driver.find_elements]: the elements for a locator, [None] when it
    raises. *)
Definition Page := By -> string -> option (list Element).

(** What [driver.get] does with a URL. *)
Inductive GetResult :=
| Loaded (page : Page)
| WebDriverFailed
| OtherFailed.

Definition Driver := string -> GetResult.

(** [for e in elems: results.append((label,) + parse(e))]; the flag tells
    whether the loop came to its end ([true]) or a parser raised. *)
Fixpoint parse_each (parse : Element -> option Parsed) (label : string)
    (elems : list Element) (results : list Card) : list Card * bool :=
  match elems with
  | [] => (results, true)
  | e :: rest =>
      match parse e with
      | None => (results, false)
      | Some (title, link, price, desc) =>
          parse_each parse label rest
            (results ++ [ {| card_site := label; card_title := title; card_link := link;
                             card_price := price; card_desc := desc |} ])%list
      end
  end.

(** One [try: if label == site: ... return results / except: pass] block:
    the flag tells whether the block returned. *)
Definition site_block (applies : bool) (elems : option (list Element))
    (parse : Element -> option Parsed) (label : string) (results : list Card)
    : list Card * bool :=
  if applies then
    match elems with
    | None => (results, false)
    | Some es => parse_each parse label es results
    end
  else (results, false).

(** [elems = find(first); if not elems: elems = find(second)] *)
Definition first_or (page : Page) (first second : string) : option (list Element) :=
  match page CSS_SELECTOR first with
  | None => None
  | Some [] => page CSS_SELECTOR second
  | Some es => Some es
  end.

Definition href_marked (href : string) : bool :=
  (PyStr.contains "/product" href || PyStr.contains "/ad" href
   || PyStr.contains "/car" href || PyStr.contains "detail" href)%bool.

(** The loop of the generic anchors fallback; it ends where an anchor
    raises. *)
Fixpoint anchors_each (label : string) (anchors : list Element) (results : list Card)
    : list Card :=
  match anchors with
  | [] => results
  | a :: rest =>
      match el_attribute a "href" with
      | None => results
      | Some h =>
          let href := match h with Some v => v | None => "" end in
          match el_text a with
          | None => results
          | Some text =>
              if (negb (PyStr.is_empty href) && href_marked href)%bool
              then anchors_each label rest
                     (results ++ [ {| card_site := label; card_title := strip text;
                                      card_link := Some href; card_price := "";
                                      card_desc := text |} ])%list
              else anchors_each label rest results
          end
      end
  end.

Definition anchors_fallback (label : string) (page : Page) (results : list Card) : list Card :=
  match page CSS_SELECTOR "a" with
  | None => results
  | Some anchors => anchors_each label (firstn 200 anchors) results
  end.

(** [scrape_site] after the page has loaded. *)
Definition scrape_loaded (label : string) (page : Page) : list Card :=
  let r0 := site_block (String.eqb label "mobile.de")
              (page CSS_SELECTOR "div.cBox-body--resultitem")
              parse_mobile_listing label [] in
  if snd r0 then fst r0 else
  let r1 := site_block (String.eqb label "autoscout24")
              (page CSS_SELECTOR "article")
              parse_autoscout_listing label (fst r0) in
  if snd r1 then fst r1 else
  let r2 := site_block (String.eqb label "willhaben")
              (first_or page "div.list-item" "div.ad")
              parse_generic_listing label (fst r1) in
  if snd r2 then fst r2 else
  let r3 := site_block (String.eqb label "leboncoin")
              (option_map (firstn 50)
                 (first_or page "li[data-qa-id='aditem_container']" "section"))
              parse_generic_listing label (fst r2) in
  if snd r3 then fst r3 else
  let r4 := site_block (String.eqb label "finn.no")
              (page CSS_SELECTOR "article")
              parse_generic_listing label (fst r3) in
  if snd r4 then fst r4 else
  let r5 := site_block (String.eqb label "blocket")
              (page CSS_SELECTOR "article")
              parse_generic_listing label (fst r4) in
  if snd r5 then fst r5 else
  anchors_fallback label page (fst r5).

(** [scrape_site]: [None] when an exception leaves it, which only a failure
    of [driver.get] other than a WebDriverException does. *)
Definition scrape_site (driver : Driver) (url : string) : option (list Card) :=
  match detect_site_label url with
  | None => None
  | Some label =>
      match driver url with
      | WebDriverFailed => Some []
      | OtherFailed => None
      | Loaded page => Some (scrape_loaded label page)
      end
  end.

(** [try: found = scrape_site(driver, url) / except Exception: found = []]
    in [run_once]. *)
Definition scrape_found (driver : Driver) (url : string) : list Card :=
  match scrape_site driver url with
  | Some found => found
  | None => []
  end.

(** One entry of [all_new]. *)
Record NewMatch := {
  nm_site : string;
  nm_title : string;
  nm_link : string;
  nm_price : string;
  nm_desc_snippet : string
}.

(** [link.split(sep)[0]] with the question mark as [sep] *)
Definition link_norm (link : string) : string := PyStr.before "?" link.

(** The lower-cased title and description joined by one space *)
Definition textpool (title desc : string) : string :=
  lower (PyStr.join " " [title; desc]).

(** [any(b.lower() in textpool for b in CAR_BRANDS_MODELS)] *)
Definition brand_hit (cfg : Config) (tp : string) : bool :=
  existsb (fun b => PyStr.contains (lower b) tp) (CAR_BRANDS_MODELS cfg).

Definition kw_hit (cfg : Config) (tp : string) : bool :=
  text_contains_keywords tp (KEYWORDS cfg).

(** The classifier: [brand_hit or kw_hit]. *)
Definition qualifies (cfg : Config) (title desc : string) : bool :=
  (brand_hit cfg (textpool title desc) || kw_hit cfg (textpool title desc))%bool.

(** The state of the first loop: the table, [all_new], and the number of
    clock readings made so far. *)
Record RunState := {
  st_db : DB;
  st_all_new : list NewMatch;
  st_ticks : nat
}.

(** The clock: the value of the n-th reading of [datetime.now]. *)
Definition Clock := nat -> Z.

(** The dictionary appended to [all_new] for a card and its key. *)
Definition new_match (c : Card) (key : string) : NewMatch :=
  {| nm_site := card_site c; nm_title := card_title c; nm_link := key;
     nm_price := card_price c;
     nm_desc_snippet := PyStr.take 250 (card_desc c) |}.

(** The body of [for site, title, link, price, desc in found]. *)
Definition process_card (cfg : Config) (clock : Clock) (st : RunState) (c : Card) : RunState :=
  match card_link c with
  | None => st
  | Some link =>
      if PyStr.is_empty link then st
      else
        let key := link_norm link in
        if is_seen (st_db st) key then st
        else if qualifies cfg (card_title c) (card_desc c) then
          {| st_db := mark_seen (st_db st) key (card_title c) (card_site c) (card_price c)
                        (clock (st_ticks st));
             st_all_new := (st_all_new st ++ [new_match c key])%list;
             st_ticks := S (st_ticks st) |}
        else st
  end.

Definition process_found (cfg : Config) (clock : Clock) (st : RunState) (found : list Card) : RunState :=
  fold_left (process_card cfg clock) found st.

(** The loop over the templates; [founds] holds what [scrape_site] returned
    for each of them, in file order (the empty list where it raised). *)
Definition process_templates (cfg : Config) (clock : Clock) (st : RunState)
    (founds : list (list Card)) : RunState :=
  fold_left (process_found cfg clock) founds st.

(** The message of one match. *)
Definition message (e : NewMatch) : string :=
  "Neues Fahrzeug: " ++ nm_title e ++ " | Preis: " ++ nm_price e ++ " | "
  ++ "Seite: " ++ nm_site e ++ " | Link: " ++ nm_link e.

(** One call of [send_whatsapp] and what it returned. *)
Record Attempt := {
  att_match : NewMatch;
  att_ok : bool
}.

(** The loop [for e in all_new] with its counter; [log] lists the calls of
    [send_whatsapp] made so far, and the n-th call meets the gateway
    [gw n]. *)
Fixpoint dispatch (cfg : Config) (gw : nat -> Gateway) (ms : list NewMatch)
    (count : Z) (log : list Attempt) : Z * list Attempt :=
  match ms with
  | [] => (count, log)
  | e :: rest =>
      if count >=? MAX_SEND_PER_RUN cfg then (count, log)
      else if send_whatsapp cfg (gw (List.length log)) (message e)
      then dispatch cfg gw rest (count + 1) (log ++ [ {| att_match := e; att_ok := true |} ])%list
      else dispatch cfg gw rest count (log ++ [ {| att_match := e; att_ok := false |} ])%list
  end.

(** The state [run_once] starts its loop in. *)
Definition start_state (file : option DB) : RunState :=
  {| st_db := init_db file; st_all_new := []; st_ticks := O |}.

Record RunResult := {
  res_db : DB;
  res_all_new : list NewMatch;
  res_count : Z;
  res_attempts : list Attempt
}.

(** [run_once]: [file] is the database file at the start, [founds] the
    scrape results per template. *)
Definition run_once (cfg : Config) (clock : Clock) (gw : nat -> Gateway)
    (file : option DB) (founds : list (list Card)) : RunResult :=
  let st := process_templates cfg clock (start_state file) founds in
  let sent :=
    match st_all_new st with
    | [] => (0, [])
    | _ => dispatch cfg gw (st_all_new st) 0 []
    end in
  {| res_db := st_db st; res_all_new := st_all_new st;
     res_count := fst sent; res_attempts := snd sent |}.

(** The audit log of [run_once]: the CSV file as its text, [None] when the
    path does not exist.  Two library functions are parameters: the text
    that [csv.DictWriter] writes for one row of fields, line end included,
    and the text that [isoformat] gives for a reading of the clock. *)
Variable csv_line : list string -> string.

Variable isoformat : Z -> string.

Definition fieldnames : list string :=
  ["timestamp"; "site"; "title"; "price"; "link"; "desc_snippet"].

(** [writer.writeheader()]: the row of the field names. *)
Definition csv_header : string := csv_line fieldnames.

(** [writer.writerow(...)] for a new match, with the fields in the order of
    [fieldnames]; [n] counts the readings of the clock. *)
Definition csv_row (clock : Clock) (n : nat) (e : NewMatch) : string :=
  csv_line [isoformat (clock n); nm_site e; nm_title e; nm_price e; nm_link e;
            nm_desc_snippet e].

(** [for e in all_new: writer.writerow(...)]: one clock reading per row,
    counted from [start]. *)
Fixpoint csv_rows (clock : Clock) (start : nat) (ms : list NewMatch) : string :=
  match ms with
  | [] => EmptyString
  | e :: rest => csv_row clock start e ++ csv_rows clock (S start) rest
  end.

(** The [if all_new:] branch up to the dispatch loop: the file is opened for
    appending, which creates it, and the header is written when the path did
    not exist before. *)
Definition append_csv (file : option string) (clock : Clock) (start : nat)
    (all_new : list NewMatch) : option string :=
  match all_new with
  | [] => file
  | _ =>
      let old := match file with
                 | None => csv_header
                 | Some text => text
                 end in
      Some (old ++ csv_rows clock start all_new)
  end.

(** The log after a sequence of runs, given for each the number of clock
    readings it made before writing and its new matches. *)
Definition csv_after (clock : Clock) (file : option string)
    (runs : list (nat * list NewMatch)) : option string :=
  fold_left (fun f run => append_csv f clock (fst run) (snd run)) runs file.

(** The data lines of a sequence of runs, in order. *)
Fixpoint all_rows (clock : Clock) (runs : list (nat * list NewMatch)) : string :=
  match runs with
  | [] => EmptyString
  | run :: rest => csv_rows clock (fst run) (snd run) ++ all_rows clock rest
  end.

(** The successful calls of a log. *)
Definition successes (log : list Attempt) : list Attempt := filter att_ok log.

(** ** Vocabulary of the statements *)

(** Where an entry of [all_new] and a new row come from: a card with a
    non-empty link that the classifier accepts. *)
Definition match_of_qualifying (cfg : Config) (cards : list Card) (m : NewMatch) : Prop :=
  exists c l, In c cards /\ card_link c = Some l /\ PyStr.is_empty l = false
              /\ qualifies cfg (card_title c) (card_desc c) = true
              /\ m = new_match c (link_norm l).

Definition row_of_qualifying (cfg : Config) (cards : list Card) (r : Row) : Prop :=
  exists c l now, In c cards /\ card_link c = Some l /\ PyStr.is_empty l = false
              /\ qualifies cfg (card_title c) (card_desc c) = true
              /\ r = new_row (link_norm l) (card_title c) (card_site c) (card_price c) now.

(** The number of rows of a key. *)
Definition count_key (db : DB) (k : string) : nat :=
  List.length (filter (fun r => String.eqb (row_link r) k) db).

(** Every character of a string passes a test. *)
Fixpoint all_chars (f : ascii -> bool) (s : string) : bool :=
  match s with
  | EmptyString => true
  | String c s' => (f c && all_chars f s')%bool
  end.

(** The number of occurrences of a character. *)
Fixpoint count_char (c : ascii) (s : string) : nat :=
  match s with
  | EmptyString => O
  | String d s' => if Ascii.eqb d c then S (count_char c s') else count_char c s'
  end.

(** Facts of [str.lower] and [str.strip] that statements take as
    hypotheses: lower-casing twice is lower-casing once; only the empty text
    is lower-cased to the empty text; stripping twice is stripping once;
    stripping brings in no character its argument does not hold; a text of
    ASCII whitespace is stripped to the empty text. *)
Definition lower_idempotent : Prop := forall s, lower (lower s) = lower s.

Definition lower_keeps_text : Prop := forall s, lower s = "" -> s = "".



Definition strip_blank : Prop :=
  forall s, all_chars PyStr.is_ascii_space s = true -> strip s = "".

(** What [parse_list] leaves of an item: not empty, no whitespace at either
    end, no comma. *)
Definition clean_item (item : string) : Prop :=
  PyStr.is_empty item = false /\ strip item = item /\ PyStr.has_char "," item = false.


(** The log entries of calls that all failed, and of calls that all went
    through. *)
Definition failed (ms : list NewMatch) : list Attempt :=
  map (fun e => {| att_match := e; att_ok := false |}) ms.

Definition delivered (ms : list NewMatch) : list Attempt :=
  map (fun e => {| att_match := e; att_ok := true |}) ms.

(** The six site flows of [scrape_site] as a table: for a site label, the
    elements its flow asks the page for and the parser it applies to them;
    [None] for any other label. *)
Definition flow_table (label : string) (page : Page)
    : option (option (list Element) * (Element -> option Parsed)) :=
  if String.eqb label "mobile.de" then
    Some (page CSS_SELECTOR "div.cBox-body--resultitem", parse_mobile_listing)
  else if String.eqb label "autoscout24" then
    Some (page CSS_SELECTOR "article", parse_autoscout_listing)
  else if String.eqb label "willhaben" then
    Some (first_or page "div.list-item" "div.ad", parse_generic_listing)
  else if String.eqb label "leboncoin" then
    Some (option_map (firstn 50)
            (first_or page "li[data-qa-id='aditem_container']" "section"),
          parse_generic_listing)
  else if String.eqb label "finn.no" then
    Some (page CSS_SELECTOR "article", parse_generic_listing)
  else if String.eqb label "blocket" then
    Some (page CSS_SELECTOR "article", parse_generic_listing)
  else None.

(** What every card of the anchors fallback looks like. *)
Definition anchor_card (label : string) (c : Card) : Prop :=
  card_site c = label /\ card_price c = "" /\ card_title c = strip (card_desc c)
  /\ exists href, card_link c = Some href /\ PyStr.is_empty href = false
                   /\ href_marked href = true.

(** The recognized placeholders, and what the templates are said to
    receive for each of them. *)
Inductive placeholder :=
| Year | MinYear | MaxYear | Km | MinKm | MaxKm | Price | MinPrice | MaxPrice | Kw.

Definition ph_name (p : placeholder) : string :=
  match p with
  | Year => "year" | MinYear => "min_year" | MaxYear => "max_year"
  | Km => "km" | MinKm => "min_km" | MaxKm => "max_km"
  | Price => "price" | MinPrice => "min_price" | MaxPrice => "max_price"
  | Kw => "kw"
  end.

Definition ph_text (cfg : Config) (p : placeholder) : string :=
  match p with
  | Year => PyStr.of_int (MIN_YEAR cfg)
  | MinYear => PyStr.of_int (MIN_YEAR cfg)
  | MaxYear => PyStr.of_int (MAX_YEAR cfg)
  | Km => PyStr.of_int (MAX_KM cfg)
  | MinKm => PyStr.of_int (MIN_KM cfg)
  | MaxKm => PyStr.of_int (MAX_KM cfg)
  | Price => PyStr.of_int (MAX_PRICE cfg)
  | MinPrice => PyStr.of_int (MIN_PRICE cfg)
  | MaxPrice => PyStr.of_int (MAX_PRICE cfg)
  | Kw => PyStr.join "+" (firstn 3 (KEYWORDS cfg))
  end.

Definition placeholder_names : list string :=
  map ph_name [Year; MinYear; MaxYear; Km; MinKm; MaxKm; Price; MinPrice; MaxPrice; Kw].

(** A template cut into literal text and placeholders. *)
Inductive segment :=
| Lit (s : string)
| Field (p : placeholder).

Fixpoint template_of (segs : list segment) : string :=
  match segs with
  | [] => EmptyString
  | Lit s :: rest => s ++ template_of rest
  | Field p :: rest => "{" ++ ph_name p ++ "}" ++ template_of rest
  end.

Fixpoint substituted (cfg : Config) (segs : list segment) : string :=
  match segs with
  | [] => EmptyString
  | Lit s :: rest => s ++ substituted cfg rest
  | Field p :: rest => ph_text cfg p ++ substituted cfg rest
  end.

Definition brace_free (s : string) : bool :=
  (negb (PyStr.has_char "{" s) && negb (PyStr.has_char "}" s))%bool.

Fixpoint literals_brace_free (segs : list segment) : bool :=
  match segs with
  | [] => true
  | Lit s :: rest => (brace_free s && literals_brace_free rest)%bool
  | Field _ :: rest => literals_brace_free rest
  end.

(** A template that holds the text of a recognized placeholder. *)
Definition mentions_placeholder (template : string) : bool :=
  existsb (fun n => PyStr.contains ("{" ++ n ++ "}") template) placeholder_names.

(** A field name that the scanner reads up to its closing brace. *)
Fixpoint bare_name (name : string) : bool :=
  match name with
  | EmptyString => true
  | String c name' =>
      (negb (Ascii.eqb c "{") && negb (Ascii.eqb c "}") && negb (Ascii.eqb c "[")
       && negb (Ascii.eqb c ":") && negb (Ascii.eqb c "!") && bare_name name')%bool
  end.

Definition no_ext : ExtendedField := fun _ _ _ _ => None.

(** A template cut into literal text, placeholders and escaped braces. *)
Inductive piece :=
| PLit (s : string)
| PField (p : placeholder)
| POpen
| PClose.

Fixpoint template_of_pieces (ps : list piece) : string :=
  match ps with
  | [] => EmptyString
  | PLit s :: rest => s ++ template_of_pieces rest
  | PField p :: rest => "{" ++ ph_name p ++ "}" ++ template_of_pieces rest
  | POpen :: rest => "{{" ++ template_of_pieces rest
  | PClose :: rest => "}}" ++ template_of_pieces rest
  end.

Fixpoint substituted_pieces (cfg : Config) (ps : list piece) : string :=
  match ps with
  | [] => EmptyString
  | PLit s :: rest => s ++ substituted_pieces cfg rest
  | PField p :: rest => ph_text cfg p ++ substituted_pieces cfg rest
  | POpen :: rest => "{" ++ substituted_pieces cfg rest
  | PClose :: rest => "}" ++ substituted_pieces cfg rest
  end.

Fixpoint piece_literals_brace_free (ps : list piece) : bool :=
  match ps with
  | [] => true
  | PLit s :: rest => (brace_free s && piece_literals_brace_free rest)%bool
  | _ :: rest => piece_literals_brace_free rest
  end.

(** The scanner is inside a replacement field. *)
Definition in_field (m : mode) : bool :=
  match m with
  | InText => false
  | _ => true
  end.

(** The ways a template is malformed or left unresolved that the statements
    name, each after any beginning made of brace-free text, recognized
    placeholders and doubled braces: an unknown, empty or numeric field; a
    closing brace on its own; an opening brace that is never closed; an
    opening brace inside a field name. *)
Inductive unresolved (cfg : Config) : string -> Prop :=
| unknown_field (ps : list piece) (name post : string) :
    piece_literals_brace_free ps = true -> bare_name name = true ->
    kwargs_get (first_part name) (format_kwargs cfg) = None ->
    unresolved cfg (template_of_pieces ps ++ "{" ++ name ++ "}" ++ post)
| single_closing (ps : list piece) (post : string) :
    piece_literals_brace_free ps = true -> PyStr.startswith "}" post = false ->
    unresolved cfg (template_of_pieces ps ++ "}" ++ post)
| unclosed_opening (ps : list piece) (rest : string) :
    piece_literals_brace_free ps = true -> PyStr.startswith "{" rest = false ->
    PyStr.has_char "}" rest = false ->
    unresolved cfg (template_of_pieces ps ++ "{" ++ rest)
| brace_in_field (ps : list piece) (name rest : string) :
    piece_literals_brace_free ps = true -> bare_name name = true ->
    PyStr.is_empty name = false ->
    unresolved cfg (template_of_pieces ps ++ "{" ++ name ++ "{" ++ rest).

Definition quiet_cfg : Config :=
  {| PHONE := "+491570000000";
     CALLMEBOT_APIKEY := "123456";
     CALLMEBOT_STRIP_PLUS := true;
     MAX_SEND_PER_RUN := 8;
     MIN_YEAR := 2019;
     MAX_YEAR := 2025;
     MIN_KM := 0;
     MAX_KM := 150000;
     MIN_PRICE := 5000;
     MAX_PRICE := 25000;
     CAR_BRANDS_MODELS := [];
     KEYWORDS := [] |}.

(** ** Sample data *)

Definition sample_row : Row := new_row "https://s/a" "Audi A4 Unfall" "s" "9.000" 100.

(** A configuration whose only brand phrase is the whole text of the two
    cards below: title, one space, description. *)
Definition exact_cfg : Config :=
  {| PHONE := "+491570000000";
     CALLMEBOT_APIKEY := "123456";
     CALLMEBOT_STRIP_PLUS := true;
     MAX_SEND_PER_RUN := 1;
     MIN_YEAR := 2020;
     MAX_YEAR := 2025;
     MIN_KM := 0;
     MAX_KM := 150000;
     MIN_PRICE := 5000;
     MAX_PRICE := 25000;
     CAR_BRANDS_MODELS := ["Audi A4 Unfall"];
     KEYWORDS := [] |}.

Definition card_e1 : Card :=
  {| card_site := "s"; card_title := "Audi A4"; card_link := Some "https://s/e1";
     card_price := "9.000"; card_desc := "Unfall" |}.

Definition card_e2 : Card :=
  {| card_site := "s"; card_title := "Audi A4"; card_link := Some "https://s/e2";
     card_price := "8.000"; card_desc := "Unfall" |}.

Definition sample_cfg : Config :=
  {| PHONE := "+491570000000";
     CALLMEBOT_APIKEY := "123456";
     CALLMEBOT_STRIP_PLUS := true;
     MAX_SEND_PER_RUN := 1;
     MIN_YEAR := 2020;
     MAX_YEAR := 2025;
     MIN_KM := 0;
     MAX_KM := 150000;
     MIN_PRICE := 5000;
     MAX_PRICE := 25000;
     CAR_BRANDS_MODELS := ["BMW 320d"; "Audi A4"];
     KEYWORDS := ["unfall"; "blech"] |}.

(** The phrases of [sample_cfg] in another spelling. *)
Definition shout_cfg : Config :=
  {| PHONE := "+491570000000";
     CALLMEBOT_APIKEY := "123456";
     CALLMEBOT_STRIP_PLUS := true;
     MAX_SEND_PER_RUN := 1;
     MIN_YEAR := 2020;
     MAX_YEAR := 2025;
     MIN_KM := 0;
     MAX_KM := 150000;
     MIN_PRICE := 5000;
     MAX_PRICE := 25000;
     CAR_BRANDS_MODELS := ["bmw 320D"; "AUDI A4"];
     KEYWORDS := ["Unfall"; "BLECH"] |}.

(** One of the brand phrases of [sample_cfg] and no keyword. *)
Definition brands_only_cfg : Config :=
  {| PHONE := "+491570000000";
     CALLMEBOT_APIKEY := "123456";
     CALLMEBOT_STRIP_PLUS := true;
     MAX_SEND_PER_RUN := 1;
     MIN_YEAR := 2020;
     MAX_YEAR := 2025;
     MIN_KM := 0;
     MAX_KM := 150000;
     MIN_PRICE := 5000;
     MAX_PRICE := 25000;
     CAR_BRANDS_MODELS := ["Audi A4"];
     KEYWORDS := [] |}.

Definition card (site title : string) (link : option string) (price desc : string) : Card :=
  {| card_site := site; card_title := title; card_link := link;
     card_price := price; card_desc := desc |}.

Definition card_a1 : Card :=
  card "s" "Audi A4 Avant" (Some "https://s/a?x=1") "9.000" "Leichter UNFALL, fahrbereit".
Definition card_a2 : Card :=
  card "s" "Audi A4 Avant" (Some "https://s/a?x=2") "9.000" "Leichter UNFALL, fahrbereit".
Definition card_golf : Card :=
  card "s" "VW Golf" (Some "https://s/b") "4.000" "Scheckheft gepflegt".
Definition card_bmw : Card :=
  card "s" "bmw 320D Touring" (Some "https://s/c") "12.000" "".
Definition card_blech : Card :=
  card "s" "Opel Astra" (Some "https://s/d") "2.000" "Blechschaden hinten".
Definition card_nolink : Card :=
  card "s" "Audi A4" None "1" "Unfall".
Definition card_emptylink : Card :=
  card "s" "Audi A4" (Some "") "1" "Unfall".
Definition card_query_only : Card :=
  card "s" "Audi A4" (Some "?x=1") "1" "Unfall".

Definition sample_founds : list (list Card) :=
  [ [card_a1; card_golf; card_a2]; []; [card_nolink; card_bmw; card_blech] ].

Definition sample_clock : Clock := fun n => Z.of_nat n.

Definition gw_ok : Gateway :=
  fun _ => Some {| status_code := 200; text := "Message queued. You will receive it in a few seconds." |}.

Definition gw_down : Gateway := fun _ => None.

(** The first two calls fail, the later ones succeed. *)
Definition gw_flaky (n : nat) : Gateway :=
  if Nat.ltb n 2 then gw_down else gw_ok.

Fixpoint replicate (n : nat) (c : ascii) : string :=
  match n with
  | O => EmptyString
  | S n' => String c (replicate n' c)
  end.

(** A body of 317 characters whose last 17 are an error marker. *)
Definition late_marker_body : string :=
  (replicate 300 "a" ++ "APIKey is invalid")%string.

Definition gw_late_marker : Gateway :=
  fun _ => Some {| status_code := 200; text := late_marker_body |}.

Definition gw_invalid_key : Gateway :=
  fun _ => Some {| status_code := 200; text := "<p>APIKey is invalid. Please check.</p>" |}.


Definition anchor (href : option string) (text : string) : Element :=
  mk_element (Some text)
             (fun name => if String.eqb name "href" then Some href else Some None)
             (fun _ _ => None).

Definition sample_page : Page :=
  fun by_ value =>
    match by_ with
    | CSS_SELECTOR =>
        if String.eqb value "a"
        then Some [anchor (Some "https://example.com/car/1") " Audi A4 Unfall ";
                   anchor (Some "https://example.com/about") "About";
                   anchor None "Home"]
        else Some []
    | TAG_NAME => Some []
    end.

Definition driver_down : Driver := fun _ => WebDriverFailed.


(** * Properties *)

(** ** Strings *)

Example lower_ex : PyStr.ascii_lower "BMW 320d [Z@`{" = "bmw 320d [z@`{".
Proof. reflexivity. Qed.

Example of_int_ex :
  (PyStr.of_int 2020, PyStr.of_int 0, PyStr.of_int (-15)) = ("2020", "0", "-15").
Proof. reflexivity. Qed.

Example before_ex : PyStr.before "?" "https://s/a?x=1?y" = "https://s/a".
Proof. reflexivity. Qed.

Example join_ex : PyStr.join "+" ["unfall"; "blech"] = "unfall+blech".
Proof. reflexivity. Qed.

Lemma lower_ascii_idem (c : ascii) :
  PyStr.ascii_lower_char (PyStr.ascii_lower_char c) = PyStr.ascii_lower_char c.
Proof.
  destruct c as [[] [] [] [] [] [] [] []]; reflexivity.
Qed.

Lemma lower_idem (s : string) : PyStr.ascii_lower (PyStr.ascii_lower s) = PyStr.ascii_lower s.
Proof.
  induction s as [|c s IH]; simpl; [reflexivity|].
  now rewrite lower_ascii_idem, IH.
Qed.

Lemma lower_is_empty (s : string) : PyStr.is_empty (PyStr.ascii_lower s) = PyStr.is_empty s.
Proof. destruct s; reflexivity. Qed.

Lemma lower_app (s t : string) : PyStr.ascii_lower (s ++ t) = PyStr.ascii_lower s ++ PyStr.ascii_lower t.
Proof.
  induction s as [|c s IH]; simpl; [reflexivity|]. now rewrite IH.
Qed.

Lemma append_assoc (a b c : string) : (a ++ b) ++ c = a ++ (b ++ c).
Proof.
  induction a as [|x a IH]; simpl; [reflexivity|]. now rewrite IH.
Qed.

Lemma append_nil_r (a : string) : a ++ "" = a.
Proof.
  induction a as [|x a IH]; simpl; [reflexivity|]. now rewrite IH.
Qed.

Lemma startswith_spec (p s : string) :
  PyStr.startswith p s = true <-> exists post, s = p ++ post.
Proof.
  revert s; induction p as [|a p IH]; intros s; simpl.
  - split; [intros _; now exists s | reflexivity].
  - destruct s as [|b s].
    + split; [discriminate | intros [post H]; discriminate].
    + rewrite andb_true_iff, Ascii.eqb_eq, IH. split.
      * intros [-> [post ->]]. now exists post.
      * intros [post H]. injection H as -> ->. split; [reflexivity | now exists post].
Qed.

Lemma contains_spec (needle hay : string) :
  PyStr.contains needle hay = true <-> PyStr.Substring needle hay.
Proof.
  unfold PyStr.Substring.
  induction hay as [|c hay IH].
  - simpl. rewrite orb_false_r, startswith_spec. split.
    + intros [post H]. now exists "", post.
    + intros [pre [post H]]. destruct pre; [now exists post | discriminate].
  - cbn [PyStr.contains]. rewrite orb_true_iff, startswith_spec, IH. split.
    + intros [[post H] | [pre [post H]]].
      * now exists "", post.
      * exists (String c pre), post. simpl. now rewrite H.
    + intros [pre [post H]]. destruct pre as [|d pre].
      * left. now exists post.
      * right. simpl in H. injection H as _ H. now exists pre, post.
Qed.

Lemma contains_empty (hay : string) : PyStr.contains "" hay = true.
Proof. destruct hay; reflexivity. Qed.

Lemma before_no_sep (sep : ascii) (s : string) :
  PyStr.has_char sep (PyStr.before sep s) = false.
Proof.
  induction s as [|c s IH]; simpl; [reflexivity|].
  destruct (Ascii.eqb c sep) eqn:E; simpl; [reflexivity|]. now rewrite E.
Qed.

Lemma before_split (sep : ascii) (s : string) :
  s = PyStr.before sep s \/ exists q, s = PyStr.before sep s ++ String sep q.
Proof.
  induction s as [|c s IH]; simpl; [now left|].
  destruct (Ascii.eqb c sep) eqn:E.
  - apply Ascii.eqb_eq in E as ->. right. now exists s.
  - destruct IH as [IH | [q IH]].
    + left. now rewrite <- IH.
    + right. exists q. simpl. now rewrite <- IH.
Qed.

Lemma before_app_sep (sep : ascii) (base q : string) :
  PyStr.has_char sep base = false ->
  PyStr.before sep (base ++ String sep q) = base.
Proof.
  induction base as [|c base IH]; simpl.
  - intros _. now rewrite Ascii.eqb_refl.
  - intros H. apply orb_false_iff in H as [H1 H2]. rewrite H1. now rewrite IH.
Qed.

Lemma before_id (sep : ascii) (s : string) :
  PyStr.has_char sep s = false -> PyStr.before sep s = s.
Proof.
  induction s as [|c s IH]; simpl; [reflexivity|].
  intros H. apply orb_false_iff in H as [H1 H2]. rewrite H1. now rewrite IH.
Qed.

Lemma before_empty_iff (sep : ascii) (s : string) :
  PyStr.before sep s = "" <-> s = "" \/ exists q, s = String sep q.
Proof.
  destruct s as [|c s]; simpl.
  - split; [now left | reflexivity].
  - destruct (Ascii.eqb c sep) eqn:E.
    + apply Ascii.eqb_eq in E as ->. split; [intros _; right; now exists s | reflexivity].
    + split; [discriminate|]. intros [H | [q H]]; [discriminate|].
      injection H as -> _. now rewrite Ascii.eqb_refl in E.
Qed.

(** ** The table [seen] *)

Open Scope list_scope.

Lemma select_link_app (db db' : DB) (k : string) :
  select_link (db ++ db') k =
  match select_link db k with
  | Some r => Some r
  | None => select_link db' k
  end.
Proof.
  unfold select_link. induction db as [|r db IH]; simpl; [reflexivity|].
  destruct (String.eqb (row_link r) k); [reflexivity | exact IH].
Qed.

Lemma is_seen_app (db db' : DB) (k : string) :
  is_seen (db ++ db') k = (is_seen db k || is_seen db' k)%bool.
Proof.
  unfold is_seen. rewrite select_link_app.
  destruct (select_link db k); reflexivity.
Qed.

Lemma is_seen_In (db : DB) (k : string) :
  is_seen db k = true <-> exists r, In r db /\ row_link r = k.
Proof.
  unfold is_seen, select_link. split.
  - destruct (find _ db) as [r|] eqn:F; [intros _ | discriminate].
    apply find_some in F as [Hin Heq]. apply String.eqb_eq in Heq. now exists r.
  - intros [r [Hin Heq]].
    destruct (find _ db) as [r'|] eqn:F; [reflexivity|].
    apply (find_none _ _ F) in Hin. apply String.eqb_neq in Hin. contradiction.
Qed.

Lemma mark_seen_absent (db : DB) (k t s p : string) (now : Z) :
  is_seen db k = false -> mark_seen db k t s p now = (db ++ [new_row k t s p now])%list.
Proof. unfold mark_seen. now intros ->. Qed.

Lemma mark_seen_present (db : DB) (k t s p : string) (now : Z) :
  is_seen db k = true -> mark_seen db k t s p now = db.
Proof. unfold mark_seen. now intros ->. Qed.

Lemma mark_seen_seen (db : DB) (k t s p : string) (now : Z) :
  is_seen (mark_seen db k t s p now) k = true.
Proof.
  unfold mark_seen. destruct (is_seen db k) eqn:E; [exact E|].
  rewrite is_seen_app, E. unfold is_seen, select_link. simpl.
  now rewrite String.eqb_refl.
Qed.

Lemma mark_seen_keeps_rows (db : DB) (k t s p : string) (now : Z) (k0 : string) (r : Row) :
  select_link db k0 = Some r -> select_link (mark_seen db k t s p now) k0 = Some r.
Proof.
  intros H. unfold mark_seen. destruct (is_seen db k); [exact H|].
  now rewrite select_link_app, H.
Qed.

Lemma mark_seen_mono (db : DB) (k t s p : string) (now : Z) (k0 : string) :
  is_seen db k0 = true -> is_seen (mark_seen db k t s p now) k0 = true.
Proof.
  unfold is_seen. destruct (select_link db k0) as [r|] eqn:E; [intros _ | discriminate].
  now rewrite (mark_seen_keeps_rows _ _ _ _ _ _ _ _ E).
Qed.

Lemma mark_seen_other (db : DB) (k t s p : string) (now : Z) (k0 : string) :
  k0 <> k -> is_seen (mark_seen db k t s p now) k0 = is_seen db k0.
Proof.
  intros Hne. unfold mark_seen. destruct (is_seen db k); [reflexivity|].
  rewrite is_seen_app. unfold is_seen at 2, select_link. simpl.
  destruct (String.eqb k k0) eqn:E.
  - apply String.eqb_eq in E. congruence.
  - apply orb_false_r.
Qed.

Lemma pk_unique_snoc (db : DB) (r : Row) :
  pk_unique db = true -> is_seen db (row_link r) = false ->
  pk_unique (db ++ [r]) = true.
Proof.
  induction db as [|x db IH]; simpl; intros Hu Hs.
  - reflexivity.
  - apply andb_true_iff in Hu as [Hx Hu].
    unfold is_seen, select_link in Hs. simpl in Hs.
    destruct (String.eqb (row_link x) (row_link r)) eqn:E; [discriminate|].
    rewrite is_seen_app. apply negb_true_iff in Hx. rewrite Hx. simpl.
    unfold is_seen at 1, select_link. simpl.
    rewrite String.eqb_sym, E. simpl.
    apply IH; [exact Hu | exact Hs].
Qed.

Lemma mark_seen_pk_unique (db : DB) (k t s p : string) (now : Z) :
  pk_unique db = true -> pk_unique (mark_seen db k t s p now) = true.
Proof.
  intros Hu. unfold mark_seen. destruct (is_seen db k) eqn:E; [exact Hu|].
  now apply pk_unique_snoc.
Qed.

Lemma mark_all_pk_unique (calls : list Row) (db : DB) :
  pk_unique db = true -> pk_unique (mark_all db calls) = true.
Proof.
  unfold mark_all. revert db. induction calls as [|o calls IH]; intros db Hu; simpl.
  - exact Hu.
  - apply IH. now apply mark_seen_pk_unique.
Qed.

(** C5: on a table without duplicate keys, [mark_seen] appends the row when
    the key is absent and changes nothing when it is present; a second
    [mark_seen] on the same key, whatever its other fields, leaves the table
    as the first one left it; every row that was in the table, its
    [first_seen] included, is still the row of its key afterwards; the keys
    stay pairwise distinct, and they are so after any sequence of calls on
    the fresh table of [init_db]. *)
Theorem mark_seen_insert_only_if_absent
    (db : DB) (k t s p : string) (now : Z) (t' s' p' : string) (now' : Z) :
  pk_unique db = true ->
  (if is_seen db k
   then mark_seen db k t s p now = db
   else mark_seen db k t s p now = (db ++ [new_row k t s p now])%list)
  /\ mark_seen (mark_seen db k t s p now) k t' s' p' now' = mark_seen db k t s p now
  /\ (forall k0 r, select_link db k0 = Some r ->
        select_link (mark_seen db k t s p now) k0 = Some r)
  /\ (forall r, select_link (mark_seen db k t s p now) k = Some r ->
        select_link (mark_seen (mark_seen db k t s p now) k t' s' p' now') k = Some r)
  /\ pk_unique (mark_seen db k t s p now) = true
  /\ (forall calls, pk_unique (mark_all (init_db None) calls) = true).
Proof.
  intros Hu. repeat split.
  - destruct (is_seen db k) eqn:E.
    + now apply mark_seen_present.
    + now apply mark_seen_absent.
  - apply mark_seen_present, mark_seen_seen.
  - intros k0 r. apply mark_seen_keeps_rows.
  - intros r. apply mark_seen_keeps_rows.
  - now apply mark_seen_pk_unique.
  - intros calls. now apply mark_all_pk_unique.
Qed.

(** ** The classifier *)

Lemma any_lower_in_spec (t : string) (phrases : list string) :
  any_lower_in t phrases = true <->
  exists k, In k phrases /\ PyStr.contains (lower k) t = true.
Proof.
  induction phrases as [|k rest IH]; simpl.
  - split; [discriminate | intros [k [[] _]]].
  - destruct (PyStr.contains (lower k) t) eqn:E.
    + split; [intros _; exists k; auto | reflexivity].
    + rewrite IH. split.
      * intros [k' [Hin Hc]]. exists k'. auto.
      * intros [k' [[<- | Hin] Hc]]; [congruence | now exists k'].
Qed.

Lemma textpool_eq (title desc : string) :
  textpool title desc = lower (title ++ " " ++ desc)%string.
Proof. reflexivity. Qed.

Lemma textpool_not_empty (title desc : string) :
  lower_keeps_text -> PyStr.is_empty (textpool title desc) = false.
Proof.
  intros Hkeep. rewrite textpool_eq.
  destruct (lower (title ++ " " ++ desc)%string) eqn:E; [|reflexivity].
  apply Hkeep in E. destruct title; discriminate.
Qed.

Lemma kw_hit_textpool (cfg : Config) (title desc : string) :
  lower_idempotent -> lower_keeps_text ->
  kw_hit cfg (textpool title desc) = any_lower_in (textpool title desc) (KEYWORDS cfg).
Proof.
  intros Hidem Hkeep. unfold kw_hit, text_contains_keywords.
  rewrite (textpool_not_empty _ _ Hkeep). unfold textpool. now rewrite Hidem.
Qed.

Lemma qualifies_iff (cfg : Config) (title desc : string) :
  lower_idempotent -> lower_keeps_text ->
  qualifies cfg title desc = true <->
  (exists b, In b (CAR_BRANDS_MODELS cfg)
             /\ PyStr.Substring (lower b) (lower (title ++ " " ++ desc)%string))
  \/ (exists k, In k (KEYWORDS cfg)
             /\ PyStr.Substring (lower k) (lower (title ++ " " ++ desc)%string)).
Proof.
  intros Hidem Hkeep.
  unfold qualifies. rewrite orb_true_iff, (kw_hit_textpool _ _ _ Hidem Hkeep), any_lower_in_spec.
  unfold brand_hit. rewrite existsb_exists, textpool_eq.
  split; (intros [[x [Hin Hc]] | [x [Hin Hc]]]; [left | right]; exists x;
          (split; [exact Hin | now apply contains_spec])).
Qed.

(** ** One card *)

Lemma process_card_cases (cfg : Config) (clock : Clock) (st : RunState) (c : Card) :
  process_card cfg clock st c = st
  \/ exists l,
       card_link c = Some l /\ PyStr.is_empty l = false
       /\ is_seen (st_db st) (link_norm l) = false
       /\ qualifies cfg (card_title c) (card_desc c) = true
       /\ process_card cfg clock st c =
          {| st_db := st_db st ++ [new_row (link_norm l) (card_title c) (card_site c)
                                     (card_price c) (clock (st_ticks st))];
             st_all_new := st_all_new st ++ [new_match c (link_norm l)];
             st_ticks := S (st_ticks st) |}.
Proof.
  unfold process_card.
  destruct (card_link c) as [l|]; [|now left].
  destruct (PyStr.is_empty l) eqn:El; [now left|].
  destruct (is_seen (st_db st) (link_norm l)) eqn:Es; [now left|].
  destruct (qualifies cfg (card_title c) (card_desc c)) eqn:Eq; [|now left].
  right. exists l. rewrite (mark_seen_absent _ _ _ _ _ _ Es). auto.
Qed.

Lemma process_card_not_qualifying (cfg : Config) (clock : Clock) (st : RunState) (c : Card) :
  qualifies cfg (card_title c) (card_desc c) = false -> process_card cfg clock st c = st.
Proof.
  intros Hq. destruct (process_card_cases cfg clock st c) as [H | [l [_ [_ [_ [Hq' _]]]]]];
    [exact H | congruence].
Qed.

Lemma process_card_seen (cfg : Config) (clock : Clock) (st : RunState) (c : Card) (l : string) :
  card_link c = Some l -> is_seen (st_db st) (link_norm l) = true ->
  process_card cfg clock st c = st.
Proof.
  intros Hl Hs. unfold process_card. rewrite Hl.
  destruct (PyStr.is_empty l); [reflexivity|]. now rewrite Hs.
Qed.

Lemma process_card_mono (cfg : Config) (clock : Clock) (st : RunState) (c : Card) (k : string) :
  is_seen (st_db st) k = true -> is_seen (st_db (process_card cfg clock st c)) k = true.
Proof.
  intros Hs. destruct (process_card_cases cfg clock st c) as [-> | [l [_ [_ [_ [_ ->]]]]]];
    [exact Hs|].
  simpl. rewrite is_seen_app, Hs. reflexivity.
Qed.

Lemma process_card_records (cfg : Config) (clock : Clock) (st : RunState) (c : Card) (l : string) :
  card_link c = Some l -> PyStr.is_empty l = false ->
  qualifies cfg (card_title c) (card_desc c) = true ->
  is_seen (st_db (process_card cfg clock st c)) (link_norm l) = true.
Proof.
  intros Hl He Hq. unfold process_card. rewrite Hl, He.
  destruct (is_seen (st_db st) (link_norm l)) eqn:Es; [exact Es|].
  rewrite Hq. simpl. apply mark_seen_seen.
Qed.

(** ** The loops over the cards *)

Lemma process_found_inv (cfg : Config) (clock : Clock) (P : RunState -> Prop)
    (found : list Card) :
  (forall st c, In c found -> P st -> P (process_card cfg clock st c)) ->
  forall st, P st -> P (process_found cfg clock st found).
Proof.
  unfold process_found. induction found as [|c found IH]; simpl; intros Hstep st Hst.
  - exact Hst.
  - apply IH; [intros st' c' Hin; apply Hstep; now right|].
    apply Hstep; [now left | exact Hst].
Qed.

Lemma process_templates_inv (cfg : Config) (clock : Clock) (P : RunState -> Prop)
    (founds : list (list Card)) :
  (forall st c, In c (List.concat founds) -> P st -> P (process_card cfg clock st c)) ->
  forall st, P st -> P (process_templates cfg clock st founds).
Proof.
  unfold process_templates. induction founds as [|f founds IH]; simpl; intros Hstep st Hst.
  - exact Hst.
  - apply IH; [intros st' c' Hin; apply Hstep, in_or_app; now right|].
    apply process_found_inv; [|exact Hst].
    intros st' c' Hin. apply Hstep, in_or_app. now left.
Qed.

Lemma process_templates_flat (cfg : Config) (clock : Clock) (st : RunState)
    (founds : list (list Card)) :
  process_templates cfg clock st founds = process_found cfg clock st (List.concat founds).
Proof.
  unfold process_templates, process_found. revert st.
  induction founds as [|f founds IH]; simpl; intros st; [reflexivity|].
  now rewrite fold_left_app, IH.
Qed.

Lemma process_found_mono (cfg : Config) (clock : Clock) (found : list Card) (st : RunState)
    (k : string) :
  is_seen (st_db st) k = true -> is_seen (st_db (process_found cfg clock st found)) k = true.
Proof.
  intros Hs.
  apply (process_found_inv cfg clock (fun s => is_seen (st_db s) k = true)); [|exact Hs].
  intros st' c _. apply process_card_mono.
Qed.

Lemma process_found_records (cfg : Config) (clock : Clock) (found : list Card) (st : RunState)
    (c : Card) (l : string) :
  In c found -> card_link c = Some l -> PyStr.is_empty l = false ->
  qualifies cfg (card_title c) (card_desc c) = true ->
  is_seen (st_db (process_found cfg clock st found)) (link_norm l) = true.
Proof.
  intros Hin Hl He Hq. revert st. induction found as [|x found IH]; intros st; [destruct Hin|].
  destruct Hin as [-> | Hin].
  - change (process_found cfg clock st (c :: found))
      with (process_found cfg clock (process_card cfg clock st c) found).
    apply process_found_mono. now apply process_card_records.
  - change (process_found cfg clock st (x :: found))
      with (process_found cfg clock (process_card cfg clock st x) found).
    now apply IH.
Qed.

Lemma process_found_fixed (cfg : Config) (clock : Clock) (found : list Card) (st : RunState) :
  (forall c l, In c found -> card_link c = Some l -> PyStr.is_empty l = false ->
     qualifies cfg (card_title c) (card_desc c) = true ->
     is_seen (st_db st) (link_norm l) = true) ->
  process_found cfg clock st found = st.
Proof.
  intros H.
  apply (process_found_inv cfg clock (fun s => s = st)); [|reflexivity].
  intros st' c Hin ->.
  destruct (process_card_cases cfg clock st c) as [E | [l [Hl [He [Hs [Hq _]]]]]]; [exact E|].
  rewrite (H c l Hin Hl He Hq) in Hs. discriminate.
Qed.

(** ** The dispatch loop *)

Lemma successes_cons (a : Attempt) (log : list Attempt) :
  Z.of_nat (List.length (successes (a :: log))) =
  (if att_ok a then 1 else 0) + Z.of_nat (List.length (successes log)).
Proof.
  unfold successes. simpl. destruct (att_ok a); simpl List.length; lia.
Qed.

(** What the loop adds to the log, and how the counter follows it. *)
Lemma dispatch_spec (cfg : Config) (gw : nat -> Gateway) (ms : list NewMatch) :
  forall (count : Z) (log : list Attempt),
  exists added,
    snd (dispatch cfg gw ms count log) = log ++ added
    /\ fst (dispatch cfg gw ms count log) = count + Z.of_nat (List.length (successes added))
    /\ map att_match added = firstn (List.length added) ms
    /\ (MAX_SEND_PER_RUN cfg <= fst (dispatch cfg gw ms count log)
        \/ List.length added = List.length ms)
    /\ fst (dispatch cfg gw ms count log) <= Z.max count (MAX_SEND_PER_RUN cfg)
    /\ (forall i a, nth_error added i = Some a ->
          att_ok a = send_whatsapp cfg (gw (List.length log + i)%nat) (message (att_match a))
          /\ count + Z.of_nat (List.length (successes (firstn i added))) < MAX_SEND_PER_RUN cfg).
Proof.
  induction ms as [|e rest IH]; intros count log.
  - exists []. simpl. rewrite app_nil_r. repeat split; try lia; try (now right).
    all: destruct i; discriminate.
  - cbn [dispatch].
    destruct (count >=? MAX_SEND_PER_RUN cfg) eqn:Ecap.
    + exists []. simpl. rewrite app_nil_r.
      apply Z.geb_le in Ecap.
      repeat split; try lia; try (now left).
      all: destruct i; discriminate.
    + assert (Hlt : count < MAX_SEND_PER_RUN cfg).
      { destruct (Z.geb_spec count (MAX_SEND_PER_RUN cfg)); [discriminate | assumption]. }
      set (ok := send_whatsapp cfg (gw (List.length log)) (message e)).
      set (a := {| att_match := e; att_ok := ok |}).
      assert (Hstep : (if ok then dispatch cfg gw rest (count + 1) (log ++ [{| att_match := e; att_ok := true |}])
                      else dispatch cfg gw rest count (log ++ [{| att_match := e; att_ok := false |}]))
                      = dispatch cfg gw rest (count + (if ok then 1 else 0)) (log ++ [a])).
      { subst a. destruct ok; [reflexivity | now rewrite Z.add_0_r]. }
      rewrite Hstep. clear Hstep.
      destruct (IH (count + (if ok then 1 else 0)) (log ++ [a]))
        as [added [Hlog [Hcnt [Hmap [Hstop [Hmax Hatt]]]]]].
      exists (a :: added).
      split; [rewrite Hlog, <- app_assoc; reflexivity|].
      split; [rewrite Hcnt, successes_cons; simpl att_ok; lia|].
      split; [simpl; now rewrite Hmap|].
      split; [destruct Hstop as [H | H]; [now left | right; simpl; now rewrite H]|].
      split; [destruct ok; lia|].
      intros i b Hi. destruct i as [|i]; simpl in Hi.
      * injection Hi as <-. simpl. rewrite Nat.add_0_r. split; [reflexivity | lia].
      * destruct (Hatt i b Hi) as [H1 H2]. split.
        -- rewrite H1, length_app. simpl. f_equal. f_equal. lia.
        -- cbn [firstn]. rewrite successes_cons. simpl att_ok. lia.
Qed.

(** ** The whole run *)

Lemma run_once_state (cfg : Config) (clock : Clock) (gw : nat -> Gateway)
    (file : option DB) (founds : list (list Card)) :
  res_db (run_once cfg clock gw file founds)
    = st_db (process_templates cfg clock (start_state file) founds)
  /\ res_all_new (run_once cfg clock gw file founds)
    = st_all_new (process_templates cfg clock (start_state file) founds).
Proof. split; reflexivity. Qed.

Lemma run_once_dispatch (cfg : Config) (clock : Clock) (gw : nat -> Gateway)
    (file : option DB) (founds : list (list Card)) :
  let r := run_once cfg clock gw file founds in
  res_count r = fst (dispatch cfg gw (res_all_new r) 0 [])
  /\ res_attempts r = snd (dispatch cfg gw (res_all_new r) 0 []).
Proof.
  unfold run_once. cbn [res_count res_attempts res_all_new].
  destruct (st_all_new _); split; reflexivity.
Qed.

(** Every entry of [all_new] has its key in the table. *)
Lemma all_new_recorded (cfg : Config) (clock : Clock) (file : option DB)
    (founds : list (list Card)) (m : NewMatch) :
  In m (st_all_new (process_templates cfg clock (start_state file) founds)) ->
  is_seen (st_db (process_templates cfg clock (start_state file) founds)) (nm_link m) = true.
Proof.
  revert m.
  apply (process_templates_inv cfg clock
           (fun s => forall m, In m (st_all_new s) -> is_seen (st_db s) (nm_link m) = true)).
  - intros st c _ IH m.
    destruct (process_card_cases cfg clock st c) as [-> | [l [_ [_ [_ [_ ->]]]]]]; [apply IH|].
    cbn [st_all_new st_db]. rewrite is_seen_app. intros Hin.
    apply in_app_or in Hin as [Hin | [<- | []]].
    + now rewrite (IH m Hin).
    + simpl. unfold is_seen, select_link. simpl. rewrite String.eqb_refl.
      apply orb_true_r.
  - intros m [].
Qed.

(** The table only grows, and no entry of [all_new] had its key in the table
    the run started from. *)
Lemma all_new_fresh (cfg : Config) (clock : Clock) (file : option DB)
    (founds : list (list Card)) :
  let st := process_templates cfg clock (start_state file) founds in
  (forall k, is_seen (init_db file) k = true -> is_seen (st_db st) k = true)
  /\ (forall m, In m (st_all_new st) -> is_seen (init_db file) (nm_link m) = false).
Proof.
  apply (process_templates_inv cfg clock
           (fun s => (forall k, is_seen (init_db file) k = true -> is_seen (st_db s) k = true)
                     /\ (forall m, In m (st_all_new s) ->
                           is_seen (init_db file) (nm_link m) = false))).
  - intros st c _ [Hmono Hfresh].
    destruct (process_card_cases cfg clock st c) as [-> | [l [_ [_ [Hs [_ ->]]]]]];
      [now split|].
    cbn [st_all_new st_db]. split.
    + intros k Hk. rewrite is_seen_app, (Hmono k Hk). reflexivity.
    + intros m Hin. apply in_app_or in Hin as [Hin | [<- | []]]; [now apply Hfresh|].
      simpl. destruct (is_seen (init_db file) (link_norm l)) eqn:E; [|reflexivity].
      rewrite (Hmono _ E) in Hs. discriminate.
  - split; [auto | intros m []].
Qed.

Lemma run_provenance (cfg : Config) (clock : Clock) (file : option DB)
    (founds : list (list Card)) :
  let st := process_templates cfg clock (start_state file) founds in
  (forall m, In m (st_all_new st) -> match_of_qualifying cfg (List.concat founds) m)
  /\ (forall r, In r (st_db st) ->
        In r (init_db file) \/ row_of_qualifying cfg (List.concat founds) r).
Proof.
  apply (process_templates_inv cfg clock
           (fun s => (forall m, In m (st_all_new s) ->
                        match_of_qualifying cfg (List.concat founds) m)
                     /\ (forall r, In r (st_db s) ->
                           In r (init_db file)
                           \/ row_of_qualifying cfg (List.concat founds) r))).
  - intros st c Hc [Hm Hr].
    destruct (process_card_cases cfg clock st c) as [-> | [l [Hl [He [_ [Hq ->]]]]]];
      [now split|].
    cbn [st_all_new st_db]. split.
    + intros m Hin. apply in_app_or in Hin as [Hin | [<- | []]]; [now apply Hm|].
      exists c, l. auto.
    + intros r Hin. apply in_app_or in Hin as [Hin | [<- | []]]; [now apply Hr|].
      right. exists c, l, (clock (st_ticks st)). auto.
  - split; [intros m [] | intros r Hin; now left].
Qed.

Lemma In_firstn_In (A : Type) (n : nat) (l : list A) (x : A) :
  In x (firstn n l) -> In x l.
Proof.
  intros H. rewrite <- (firstn_skipn n l). apply in_or_app. now left.
Qed.

Lemma run_attempts_from_all_new (cfg : Config) (clock : Clock) (gw : nat -> Gateway)
    (file : option DB) (founds : list (list Card)) (a : Attempt) :
  In a (res_attempts (run_once cfg clock gw file founds)) ->
  In (att_match a) (res_all_new (run_once cfg clock gw file founds)).
Proof.
  destruct (run_once_dispatch cfg clock gw file founds) as [_ Hatt].
  cbv zeta in Hatt. rewrite Hatt.
  destruct (dispatch_spec cfg gw (res_all_new (run_once cfg clock gw file founds)) 0 [])
    as [added [Hlog [_ [Hmap _]]]].
  rewrite Hlog. cbn [app]. intros Hin.
  apply (In_firstn_In _ (List.length added)). rewrite <- Hmap. now apply in_map.
Qed.

Lemma run_count_bound (cfg : Config) (clock : Clock) (gw : nat -> Gateway)
    (file : option DB) (founds : list (list Card)) :
  let r := run_once cfg clock gw file founds in
  res_count r = Z.of_nat (List.length (successes (res_attempts r)))
  /\ res_count r <= Z.max 0 (MAX_SEND_PER_RUN cfg).
Proof.
  destruct (run_once_dispatch cfg clock gw file founds) as [Hcnt Hatt].
  cbv zeta in *. rewrite Hcnt, Hatt.
  destruct (dispatch_spec cfg gw (res_all_new (run_once cfg clock gw file founds)) 0 [])
    as [added [Hlog [Hc [_ [_ [Hmax _]]]]]].
  rewrite Hlog. cbn [app]. split; [rewrite Hc; lia | exact Hmax].
Qed.

(** C1: in every run the number of notifications sent, which is the number
    of successful calls of the gateway, is at most the cap (at most zero for
    a cap below zero); every entry of the new-matches list, and indeed every
    card with a non-empty link that the classifier accepts, has its key in
    the table when the run ends, whether or not a message went out for it;
    and a later run, started from a table that still holds those keys, never
    lists one of these links as new again, whatever its configuration. *)
Theorem send_cap_and_recording (cfg : Config) (clock : Clock) (gw : nat -> Gateway)
    (file : option DB) (founds : list (list Card)) :
  let r := run_once cfg clock gw file founds in
  res_count r = Z.of_nat (List.length (successes (res_attempts r)))
  /\ res_count r <= Z.max 0 (MAX_SEND_PER_RUN cfg)
  /\ (forall m, In m (res_all_new r) -> is_seen (res_db r) (nm_link m) = true)
  /\ (forall c l, In c (List.concat founds) -> card_link c = Some l ->
        PyStr.is_empty l = false -> qualifies cfg (card_title c) (card_desc c) = true ->
        is_seen (res_db r) (link_norm l) = true)
  /\ (forall cfg' clock' gw' db' founds' m m',
        (forall k, is_seen (res_db r) k = true -> is_seen db' k = true) ->
        In m (res_all_new r) ->
        In m' (res_all_new (run_once cfg' clock' gw' (Some db') founds')) ->
        nm_link m' <> nm_link m).
Proof.
  cbv zeta.
  destruct (run_count_bound cfg clock gw file founds) as [Hc Hb].
  split; [exact Hc|]. split; [exact Hb|]. split; [|split].
  - intros m. apply all_new_recorded.
  - intros c l Hin Hl He Hq.
    destruct (run_once_state cfg clock gw file founds) as [-> _].
    rewrite process_templates_flat. now apply (process_found_records cfg clock _ _ c).
  - intros cfg' clock' gw' db' founds' m m' Hext Hm Hm' Heq.
    apply all_new_recorded in Hm. apply Hext in Hm.
    destruct (all_new_fresh cfg' clock' (Some db') founds') as [_ Hfresh].
    apply Hfresh in Hm'. simpl in Hm'. rewrite Heq in Hm'.
    destruct (run_once_state cfg clock gw file founds) as [_ E].
    congruence.
Qed.

(** C2: the classifier accepts a title and a description exactly when the
    lower-cased form of some brand or model phrase, or of some keyword, occurs
    as a substring of the lower-cased text made of the title, one space and
    the description; a card the classifier rejects leaves the table and the
    new-matches list as they were; and in a whole run every entry of the
    new-matches list and every row added to the table comes from an accepted
    card, and every call of the gateway is for an entry of that list.
    Lower-casing is [str.lower], whatever it does to a text; the
    equivalence rests on two facts of it, since the keyword test lower-cases
    the text a second time and refuses an empty text: lower-casing twice is
    lower-casing once, and only the empty text is lower-cased to the empty
    text. *)
Theorem classifier_or_policy (cfg : Config) (clock : Clock) (gw : nat -> Gateway)
    (file : option DB) (founds : list (list Card))
    (title desc : string) (st : RunState) (c : Card) :
  (lower_idempotent -> lower_keeps_text ->
   (qualifies cfg title desc = true <->
      (exists b, In b (CAR_BRANDS_MODELS cfg)
         /\ PyStr.Substring (lower b) (lower (title ++ " " ++ desc)%string))
      \/ (exists k, In k (KEYWORDS cfg)
         /\ PyStr.Substring (lower k) (lower (title ++ " " ++ desc)%string))))
  /\ (qualifies cfg (card_title c) (card_desc c) = false ->
        process_card cfg clock st c = st)
  /\ (forall m, In m (res_all_new (run_once cfg clock gw file founds)) ->
        match_of_qualifying cfg (List.concat founds) m)
  /\ (forall r, In r (res_db (run_once cfg clock gw file founds)) ->
        In r (init_db file) \/ row_of_qualifying cfg (List.concat founds) r)
  /\ (forall a, In a (res_attempts (run_once cfg clock gw file founds)) ->
        match_of_qualifying cfg (List.concat founds) (att_match a)).
Proof.
  split; [intros Hidem Hkeep; now apply qualifies_iff|].
  split; [apply process_card_not_qualifying|].
  destruct (run_provenance cfg clock file founds) as [Hm Hr].
  split; [exact Hm|]. split; [exact Hr|].
  intros a Hin. apply Hm. now apply (run_attempts_from_all_new cfg clock gw file founds).
Qed.

(** ** Keys *)

Lemma count_key_unseen (db : DB) (k : string) :
  is_seen db k = false -> count_key db k = O.
Proof.
  unfold is_seen, select_link, count_key.
  induction db as [|r db IH]; simpl; [reflexivity|].
  destruct (String.eqb (row_link r) k); [discriminate | exact IH].
Qed.

Lemma count_key_seen (db : DB) (k : string) :
  pk_unique db = true -> is_seen db k = true -> count_key db k = 1%nat.
Proof.
  induction db as [|r db IH]; simpl; intros Hu Hs; [discriminate|].
  apply andb_true_iff in Hu as [Hr Hu]. apply negb_true_iff in Hr.
  unfold is_seen, select_link in Hs. unfold count_key. simpl in *.
  destruct (String.eqb (row_link r) k) eqn:E.
  - apply String.eqb_eq in E. subst k. simpl. f_equal. now apply count_key_unseen.
  - now apply IH.
Qed.

Lemma process_card_pk_unique (cfg : Config) (clock : Clock) (st : RunState) (c : Card) :
  pk_unique (st_db st) = true -> pk_unique (st_db (process_card cfg clock st c)) = true.
Proof.
  intros Hu. destruct (process_card_cases cfg clock st c) as [-> | [l [_ [_ [Hs [_ ->]]]]]];
    [exact Hu|].
  simpl. now apply pk_unique_snoc.
Qed.

Lemma link_with_query_not_empty (base q : string) :
  PyStr.is_empty (base ++ "?" ++ q)%string = false.
Proof. destruct base; reflexivity. Qed.

(** C3: the key of a link is the link cut at its first question mark, so it
    holds no question mark and the link is the key, or the key followed by a
    question mark and a query string.  Two links that are one base followed by
    different query strings have the base as their key; once a card with the
    first link is accepted, the table holds exactly one row of that key, and a
    card with the second link changes neither the table nor the new-matches
    list. *)
Theorem query_string_dedup (cfg : Config) (clock : Clock) (st : RunState)
    (c1 c2 : Card) (base q1 q2 : string) :
  PyStr.has_char "?" base = false ->
  card_link c1 = Some (base ++ "?" ++ q1)%string ->
  card_link c2 = Some (base ++ "?" ++ q2)%string ->
  qualifies cfg (card_title c1) (card_desc c1) = true ->
  pk_unique (st_db st) = true ->
  (forall l, PyStr.has_char "?" (link_norm l) = false
             /\ (l = link_norm l \/ exists q, l = (link_norm l ++ "?" ++ q)%string))
  /\ link_norm (base ++ "?" ++ q1)%string = base
  /\ link_norm (base ++ "?" ++ q2)%string = base
  /\ is_seen (st_db (process_card cfg clock st c1)) base = true
  /\ count_key (st_db (process_card cfg clock st c1)) base = 1%nat
  /\ process_card cfg clock (process_card cfg clock st c1) c2 = process_card cfg clock st c1.
Proof.
  intros Hbase Hl1 Hl2 Hq Hu.
  assert (N1 : link_norm (base ++ "?" ++ q1)%string = base) by now apply before_app_sep.
  assert (N2 : link_norm (base ++ "?" ++ q2)%string = base) by now apply before_app_sep.
  assert (Hs : is_seen (st_db (process_card cfg clock st c1)) base = true).
  { pose proof (process_card_records cfg clock st c1 _ Hl1
                  (link_with_query_not_empty base q1) Hq) as H.
    now rewrite N1 in H. }
  split; [intros l; split; [apply before_no_sep | apply before_split]|].
  split; [exact N1|]. split; [exact N2|]. split; [exact Hs|]. split.
  - apply count_key_seen; [now apply process_card_pk_unique | exact Hs].
  - apply (process_card_seen cfg clock _ c2 _ Hl2). now rewrite N2.
Qed.

(** C4, amended: a card whose link is missing or empty changes neither the
    table nor the new-matches list; the key of a link is empty exactly for the
    empty link and for a link that starts with a question mark; and in a whole
    run every new match comes from a card whose link is not empty. *)
Theorem empty_link_never_recorded (cfg : Config) (clock : Clock) (gw : nat -> Gateway)
    (file : option DB) (founds : list (list Card)) (st : RunState) (c : Card) :
  card_link c = None \/ card_link c = Some "" ->
  process_card cfg clock st c = st
  /\ (forall l, link_norm l = "" <-> l = "" \/ exists q, l = ("?" ++ q)%string)
  /\ (forall m, In m (res_all_new (run_once cfg clock gw file founds)) ->
        exists c' l, In c' (List.concat founds) /\ card_link c' = Some l
                     /\ PyStr.is_empty l = false /\ nm_link m = link_norm l).
Proof.
  intros Hl. split; [|split].
  - unfold process_card. destruct Hl as [-> | ->]; reflexivity.
  - intros l. apply before_empty_iff.
  - intros m Hin.
    destruct (run_provenance cfg clock file founds) as [Hm _].
    destruct (Hm m Hin) as [c' [l [Hc [Hl' [He [_ ->]]]]]].
    exists c', l. auto.
Qed.

(** C6: a second run over the same scrape results and the same configuration,
    started from the table the first run left, finds no new match: its
    new-matches list is empty, the table stays as it was and the gateway is
    not called (the clocks and the gateways of the two runs may differ). *)
Theorem rerun_finds_nothing_new (cfg : Config) (clock1 clock2 : Clock)
    (gw1 gw2 : nat -> Gateway) (file : option DB) (founds : list (list Card)) :
  let r1 := run_once cfg clock1 gw1 file founds in
  let r2 := run_once cfg clock2 gw2 (Some (res_db r1)) founds in
  res_all_new r2 = []
  /\ res_db r2 = res_db r1
  /\ res_attempts r2 = []
  /\ res_count r2 = 0.
Proof.
  cbv zeta.
  set (db1 := res_db (run_once cfg clock1 gw1 file founds)).
  assert (Hfix : process_templates cfg clock2 (start_state (Some db1)) founds
                 = start_state (Some db1)).
  { rewrite process_templates_flat. apply process_found_fixed.
    intros c l Hin Hl He Hq. simpl. subst db1.
    destruct (run_once_state cfg clock1 gw1 file founds) as [-> _].
    rewrite process_templates_flat. now apply (process_found_records cfg clock1 _ _ c). }
  assert (E : run_once cfg clock2 gw2 (Some db1) founds
              = {| res_db := db1; res_all_new := []; res_count := 0; res_attempts := [] |}).
  { unfold run_once. rewrite Hfix. reflexivity. }
  rewrite E. simpl. auto.
Qed.

(** With a cap of zero or below the loop stops before its first call. *)
Lemma dispatch_no_cap (cfg : Config) (gw : nat -> Gateway) (ms : list NewMatch) :
  MAX_SEND_PER_RUN cfg <= 0 -> dispatch cfg gw ms 0 [] = (0, []).
Proof.
  intros Hcap. destruct ms as [|e rest]; [reflexivity|].
  cbn [dispatch]. destruct (Z.geb_spec 0 (MAX_SEND_PER_RUN cfg)); [reflexivity | lia].
Qed.

Lemma contains_refl (s : string) : PyStr.contains s s = true.
Proof. apply contains_spec. exists "", "". simpl. now rewrite append_nil_r. Qed.

Lemma process_card_new (cfg : Config) (clock : Clock) (st : RunState) (c : Card)
    (l : string) :
  card_link c = Some l -> PyStr.is_empty l = false ->
  is_seen (st_db st) (link_norm l) = false ->
  qualifies cfg (card_title c) (card_desc c) = true ->
  process_card cfg clock st c =
  {| st_db := st_db st ++ [new_row (link_norm l) (card_title c) (card_site c)
                             (card_price c) (clock (st_ticks st))];
     st_all_new := st_all_new st ++ [new_match c (link_norm l)];
     st_ticks := S (st_ticks st) |}.
Proof.
  intros Hl He Hs Hq. unfold process_card. rewrite Hl, He, Hs, Hq.
  now rewrite (mark_seen_absent _ _ _ _ _ _ Hs).
Qed.

(** A run with two new matches, a cap of one and a gateway that is down:
    two calls, no send. *)
Lemma attempts_can_exceed_cap :
  exists cfg0 clock0 gw0 file0 founds0,
    MAX_SEND_PER_RUN cfg0
      < Z.of_nat (List.length (res_attempts (run_once cfg0 clock0 gw0 file0 founds0)))
    /\ res_count (run_once cfg0 clock0 gw0 file0 founds0) <= MAX_SEND_PER_RUN cfg0.
Proof.
  exists exact_cfg, sample_clock, (fun _ => gw_down), None, [[card_e1; card_e2]].
  assert (Hq : qualifies exact_cfg "Audi A4" "Unfall" = true).
  { unfold qualifies, brand_hit, textpool. cbn [exact_cfg CAR_BRANDS_MODELS existsb PyStr.join append].
    now rewrite contains_refl. }
  assert (Hst : process_templates exact_cfg sample_clock (start_state None) [[card_e1; card_e2]]
                = {| st_db := [new_row "https://s/e1" "Audi A4" "s" "9.000" (sample_clock 0%nat);
                               new_row "https://s/e2" "Audi A4" "s" "8.000" (sample_clock 1%nat)];
                     st_all_new := [new_match card_e1 "https://s/e1";
                                    new_match card_e2 "https://s/e2"];
                     st_ticks := 2%nat |}).
  { unfold process_templates, process_found. cbn [fold_left].
    rewrite (process_card_new exact_cfg sample_clock (start_state None) card_e1
               "https://s/e1" eq_refl eq_refl eq_refl Hq).
    cbn [start_state init_db st_db st_all_new st_ticks app].
    rewrite (process_card_new exact_cfg sample_clock
               {| st_db := [new_row (link_norm "https://s/e1") (card_title card_e1)
                              (card_site card_e1) (card_price card_e1) (sample_clock 0%nat)];
                  st_all_new := [new_match card_e1 (link_norm "https://s/e1")];
                  st_ticks := 1%nat |} card_e2
               "https://s/e2" eq_refl eq_refl eq_refl Hq).
    reflexivity. }
  unfold run_once. rewrite Hst. cbn [st_all_new st_db dispatch fst snd res_attempts res_count].
  cbn. split; [reflexivity | discriminate].
Qed.

(** C10: the counter of the dispatch loop is the number of successful calls
    of [send_whatsapp]; the calls are made for the entries of the new-matches
    list in order, without a gap, each one while the successes so far are
    below the cap, a failed call being followed by the call for the next
    entry; the successes never exceed the cap (zero for a cap below zero);
    the loop ends with the successes at the cap or with a call made for every
    entry; and there is a run with more calls than the cap allows sends. *)
Theorem dispatch_counts_successes_only (cfg : Config) (clock : Clock)
    (gw : nat -> Gateway) (file : option DB) (founds : list (list Card)) :
  let r := run_once cfg clock gw file founds in
  res_count r = Z.of_nat (List.length (successes (res_attempts r)))
  /\ map att_match (res_attempts r)
     = firstn (List.length (res_attempts r)) (res_all_new r)
  /\ (forall i a, nth_error (res_attempts r) i = Some a ->
        att_ok a = send_whatsapp cfg (gw i) (message (att_match a))
        /\ Z.of_nat (List.length (successes (firstn i (res_attempts r))))
           < MAX_SEND_PER_RUN cfg)
  /\ res_count r <= Z.max 0 (MAX_SEND_PER_RUN cfg)
  /\ (MAX_SEND_PER_RUN cfg <= res_count r
      \/ List.length (res_attempts r) = List.length (res_all_new r))
  /\ (exists cfg0 clock0 gw0 file0 founds0,
        MAX_SEND_PER_RUN cfg0
          < Z.of_nat (List.length (res_attempts (run_once cfg0 clock0 gw0 file0 founds0)))
        /\ res_count (run_once cfg0 clock0 gw0 file0 founds0) <= MAX_SEND_PER_RUN cfg0).
Proof.
  cbv zeta.
  destruct (run_once_dispatch cfg clock gw file founds) as [Hcnt Hatt].
  cbv zeta in *. rewrite Hcnt, Hatt.
  destruct (dispatch_spec cfg gw (res_all_new (run_once cfg clock gw file founds)) 0 [])
    as [added [Hlog [Hc [Hmap [Hstop [Hmax Hcalls]]]]]].
  rewrite Hlog. cbn [app].
  split; [rewrite Hc; lia|]. split; [exact Hmap|]. split; [|split; [|split]].
  - intros i a Hi. destruct (Hcalls i a Hi) as [H1 H2]. split; [exact H1 | lia].
  - exact Hmax.
  - exact Hstop.
  - apply attempts_can_exceed_cap.
Qed.

(** ** The gateway call *)

Lemma take_all (n : nat) (s : string) :
  (String.length s <= n)%nat -> PyStr.take n s = s.
Proof.
  revert n. induction s as [|c s IH]; intros n H.
  - destruct n; reflexivity.
  - destruct n as [|n]; simpl in *; [lia|]. rewrite IH; [reflexivity | lia].
Qed.

Lemma send_whatsapp_true_iff (cfg : Config) (gw : Gateway) (msg : string) :
  send_whatsapp cfg gw msg = true <->
  PyStr.is_empty (CALLMEBOT_APIKEY cfg) = false
  /\ PyStr.is_empty (PHONE cfg) = false
  /\ exists r, gw (payload cfg msg) = Some r /\ status_code r = 200
               /\ has_error_marker (PyStr.take 300 (text r)) = false.
Proof.
  unfold send_whatsapp, has_error_marker.
  destruct (PyStr.is_empty (CALLMEBOT_APIKEY cfg)); simpl.
  { split; [discriminate | intros [H _]; discriminate]. }
  destruct (PyStr.is_empty (PHONE cfg)); simpl.
  { split; [discriminate | intros [_ [H _]]; discriminate]. }
  destruct (gw (payload cfg msg)) as [r|].
  2:{ split; [discriminate | intros [_ [_ [r [H _]]]]; discriminate]. }
  destruct (Z.eqb_spec (status_code r) 200) as [E | E].
  - destruct (_ || _)%bool eqn:M.
    + split; [discriminate|]. intros [_ [_ [r' [Hr [_ Hm]]]]].
      injection Hr as <-. congruence.
    + split; [|reflexivity]. intros _. repeat split. exists r. auto.
  - split; [discriminate|]. intros [_ [_ [r' [Hr [Hs _]]]]].
    injection Hr as <-. contradiction.
Qed.

(** C7, amended: a send is reported as successful exactly when the key and
    the phone are set, the gateway answers, the status is 200 and the first
    300 characters of the body hold no error marker (the text
    [APIKey is invalid], or [error] in any case); so a status 200 with
    [APIKey is invalid] within the first 300 characters is a failed send, and
    for a body of at most 300 characters a marker anywhere makes it fail. *)
Theorem send_success_needs_clean_snippet (cfg : Config) (gw : Gateway) (msg : string) :
  (send_whatsapp cfg gw msg = true <->
     PyStr.is_empty (CALLMEBOT_APIKEY cfg) = false
     /\ PyStr.is_empty (PHONE cfg) = false
     /\ exists r, gw (payload cfg msg) = Some r /\ status_code r = 200
                  /\ has_error_marker (PyStr.take 300 (text r)) = false)
  /\ (forall r, gw (payload cfg msg) = Some r ->
        PyStr.contains "APIKey is invalid" (PyStr.take 300 (text r)) = true ->
        send_whatsapp cfg gw msg = false)
  /\ (forall r, gw (payload cfg msg) = Some r -> (String.length (text r) <= 300)%nat ->
        has_error_marker (text r) = true ->
        send_whatsapp cfg gw msg = false).
Proof.
  split; [apply send_whatsapp_true_iff|].
  assert (H : forall r, gw (payload cfg msg) = Some r ->
                has_error_marker (PyStr.take 300 (text r)) = true ->
                send_whatsapp cfg gw msg = false).
  { intros r Hr Hm. destruct (send_whatsapp cfg gw msg) eqn:E; [|reflexivity].
    apply send_whatsapp_true_iff in E as [_ [_ [r' [Hr' [_ Hm']]]]]. congruence. }
  split.
  - intros r Hr Hm. apply (H r Hr). unfold has_error_marker. now rewrite Hm.
  - intros r Hr Hlen Hm. apply (H r Hr). now rewrite take_all.
Qed.

(** ** Search templates *)

Open Scope string_scope.

Section Scanner.

Variable ext : ExtendedField.
Variable kwargs : list (string * value).

Lemma brace_free_cons (c : ascii) (s : string) :
  brace_free (String c s) = true ->
  Ascii.eqb c "{" = false /\ Ascii.eqb c "}" = false /\ brace_free s = true.
Proof.
  unfold brace_free. simpl.
  destruct (Ascii.eqb c "{"), (Ascii.eqb c "}"); simpl; try discriminate.
  - now rewrite andb_false_r.
  - intros H. auto.
Qed.

(** Brace-free text is copied to the output. *)
Lemma scan_literal (lit : string) :
  brace_free lit = true ->
  forall out rest,
  scan ext kwargs InText out (lit ++ rest) = scan ext kwargs InText (out ++ lit) rest.
Proof.
  induction lit as [|c lit IH]; intros Hbf out rest.
  - now rewrite append_nil_r.
  - apply brace_free_cons in Hbf as [Ho [Hc Hbf]].
    cbn [append scan]. rewrite Ho, Hc, (IH Hbf). unfold snoc.
    now rewrite append_assoc.
Qed.

(** A bare field name is read up to its closing brace and rendered. *)
Lemma scan_bare_name (name : string) :
  bare_name name = true ->
  forall acc out rest,
  scan ext kwargs (InName acc false) out (name ++ String "}" rest) =
  match render_field ext kwargs (acc ++ name) None "" with
  | None => None
  | Some r => scan ext kwargs InText (out ++ r) rest
  end.
Proof.
  induction name as [|c name IH]; intros Hb acc out rest.
  - rewrite append_nil_r. reflexivity.
  - simpl in Hb.
    destruct (Ascii.eqb c "{") eqn:E1; [discriminate|].
    destruct (Ascii.eqb c "}") eqn:E2; [discriminate|].
    destruct (Ascii.eqb c "[") eqn:E3; [discriminate|].
    destruct (Ascii.eqb c ":") eqn:E4; [discriminate|].
    destruct (Ascii.eqb c "!") eqn:E5; [discriminate|].
    simpl in Hb. cbn [append scan]. rewrite E1, E2, E3, E4, E5, (IH Hb).
    unfold snoc. now rewrite append_assoc.
Qed.

Lemma scan_field (name : string) (out rest : string) :
  bare_name name = true ->
  scan ext kwargs InText out ("{" ++ name ++ "}" ++ rest) =
  match render_field ext kwargs name None "" with
  | None => None
  | Some r => scan ext kwargs InText (out ++ r) rest
  end.
Proof.
  intros Hb. pose proof (scan_bare_name name Hb "" out rest) as H.
  cbn [append] in H. rewrite <- H.
  destruct name as [|c name]; [reflexivity|].
  simpl in Hb. cbn [append scan].
  destruct (Ascii.eqb c "{") eqn:E1; [discriminate | reflexivity].
Qed.

End Scanner.

Lemma kw_param_eq (cfg : Config) : kw_param cfg = PyStr.join "+" (firstn 3 (KEYWORDS cfg)).
Proof. unfold kw_param. destruct (KEYWORDS cfg); reflexivity. Qed.

Lemma render_placeholder (ext : ExtendedField) (cfg : Config) (p : placeholder) :
  bare_name (ph_name p) = true
  /\ render_field ext (format_kwargs cfg) (ph_name p) None "" = Some (ph_text cfg p).
Proof.
  destruct p; (split; [reflexivity|]); try reflexivity.
  unfold render_field. simpl. now rewrite kw_param_eq.
Qed.

Lemma scan_segments (ext : ExtendedField) (cfg : Config) (segs : list segment) :
  literals_brace_free segs = true ->
  forall out,
  scan ext (format_kwargs cfg) InText out (template_of segs)
  = Some (out ++ substituted cfg segs).
Proof.
  induction segs as [|[s | p] segs IH]; intros Hok out.
  - simpl. now rewrite append_nil_r.
  - simpl in Hok. apply andb_true_iff in Hok as [Hs Hok].
    cbn [template_of substituted]. rewrite (scan_literal _ _ _ Hs), (IH Hok).
    now rewrite append_assoc.
  - simpl in Hok. cbn [template_of substituted].
    destruct (render_placeholder ext cfg p) as [Hb Hr].
    rewrite (scan_field _ _ _ _ _ Hb), Hr, (IH Hok).
    now rewrite append_assoc.
Qed.

Example format_examples :
  map (format_template no_ext sample_cfg)
    ["{min_km}-{max_km}"; "{{year}}={year}"; "{jahr}"; "{0}"; "{}"; "{year"; "year}"]
  = [Some "0-150000"; Some "{year}=2020"; None; None; None; None; None].
Proof. reflexivity. Qed.

(** C8: a template made of brace-free text and recognized placeholders
    resolves to the same text with [year] and [min_year] replaced by MIN_YEAR,
    [max_year] by MAX_YEAR, [km] and [max_km] by MAX_KM, [min_km] by MIN_KM,
    [price] and [max_price] by MAX_PRICE, [min_price] by MIN_PRICE, each in
    decimal, and [kw] by the first three keywords joined by a plus sign. *)
Theorem placeholders_substituted (ext : ExtendedField) (cfg : Config) (segs : list segment) :
  literals_brace_free segs = true ->
  format_template ext cfg (template_of segs) = Some (substituted cfg segs)
  /\ resolve_url ext cfg (template_of segs) = substituted cfg segs.
Proof.
  intros Hok. unfold resolve_url, format_template.
  rewrite (scan_segments ext cfg segs Hok ""). split; reflexivity.
Qed.

Lemma scan_pieces (ext : ExtendedField) (cfg : Config) (ps : list piece) :
  piece_literals_brace_free ps = true ->
  forall out rest,
  scan ext (format_kwargs cfg) InText out (template_of_pieces ps ++ rest)
  = scan ext (format_kwargs cfg) InText (out ++ substituted_pieces cfg ps) rest.
Proof.
  induction ps as [|[s | p | |] ps IH]; intros Hok out rest.
  - simpl. now rewrite append_nil_r.
  - simpl in Hok. apply andb_true_iff in Hok as [Hs Hok].
    cbn [template_of_pieces substituted_pieces].
    rewrite append_assoc, (scan_literal _ _ _ Hs), (IH Hok), append_assoc. reflexivity.
  - simpl in Hok. cbn [template_of_pieces substituted_pieces].
    destruct (render_placeholder ext cfg p) as [Hb Hr].
    replace (("{" ++ ph_name p ++ "}" ++ template_of_pieces ps) ++ rest)
      with ("{" ++ ph_name p ++ "}" ++ (template_of_pieces ps ++ rest))
      by (simpl; now rewrite append_assoc).
    rewrite (scan_field _ _ _ _ _ Hb), Hr, (IH Hok), append_assoc. reflexivity.
  - simpl in Hok. cbn [template_of_pieces substituted_pieces append scan].
    simpl. rewrite (IH Hok). unfold snoc. now rewrite append_assoc.
  - simpl in Hok. cbn [template_of_pieces substituted_pieces append scan].
    simpl. rewrite (IH Hok). unfold snoc. now rewrite append_assoc.
Qed.

(** Inside a replacement field, a text without a closing brace never ends
    the field: the scanner reaches the end of the template and raises. *)
Lemma scan_unclosed (ext : ExtendedField) (kwargs : list (string * value)) (rest : string) :
  PyStr.has_char "}" rest = false ->
  forall m out, in_field m = true -> scan ext kwargs m out rest = None.
Proof.
  induction rest as [|c rest IH]; intros Hno m out Hm.
  - destruct m; [discriminate | reflexivity..].
  - cbn [PyStr.has_char] in Hno. apply orb_false_iff in Hno as [Hc Hno].
    specialize (IH Hno).
    destruct m as [|name [|]|name|name conv|name conv spec depth]; cbn [scan].
    + discriminate.
    + now apply IH.
    + rewrite Hc.
      destruct (Ascii.eqb c "{"); [reflexivity|].
      destruct (Ascii.eqb c "["); [now apply IH|].
      destruct (Ascii.eqb c ":"); [now apply IH|].
      destruct (Ascii.eqb c "!"); now apply IH.
    + now apply IH.
    + rewrite Hc. destruct (Ascii.eqb c ":"); [now apply IH | reflexivity].
    + rewrite Hc. destruct (Ascii.eqb c "{"); now apply IH.
Qed.

(** A bare field name followed by an opening brace raises. *)
Lemma scan_brace_in_name (ext : ExtendedField) (kwargs : list (string * value))
    (name : string) :
  bare_name name = true ->
  forall acc out rest,
  scan ext kwargs (InName acc false) out (name ++ String "{" rest) = None.
Proof.
  induction name as [|c name IH]; intros Hb acc out rest; [reflexivity|].
  simpl in Hb.
  destruct (Ascii.eqb c "{") eqn:E1; [discriminate|].
  destruct (Ascii.eqb c "}") eqn:E2; [discriminate|].
  destruct (Ascii.eqb c "[") eqn:E3; [discriminate|].
  destruct (Ascii.eqb c ":") eqn:E4; [discriminate|].
  destruct (Ascii.eqb c "!") eqn:E5; [discriminate|].
  simpl in Hb. cbn [append scan]. rewrite E1, E2, E3, E4, E5. now apply IH.
Qed.

Lemma scan_opens_field (ext : ExtendedField) (kwargs : list (string * value))
    (d : ascii) (s out : string) :
  Ascii.eqb d "{" = false ->
  scan ext kwargs InText out (String "{" (String d s))
  = scan ext kwargs (InName "" false) out (String d s).
Proof.
  intros E. cbn [scan]. change (Ascii.eqb "{" "{") with true. cbv iota.
  rewrite E. reflexivity.
Qed.

Lemma unresolved_raises (ext : ExtendedField) (cfg : Config) (t : string) :
  unresolved cfg t -> format_template ext cfg t = None.
Proof.
  unfold format_template.
  intros [ps name post Hps Hname Hget | ps post Hps Hpost | ps rest Hps Hstart Hno
         | ps name rest Hps Hname Hne];
    rewrite (scan_pieces ext cfg ps Hps).
  - rewrite (scan_field _ _ _ _ _ Hname). unfold render_field. now rewrite Hget.
  - cbn [append scan]. destruct post as [|d post]; [reflexivity|].
    cbn [PyStr.startswith] in Hpost.
    rewrite Ascii.eqb_sym in Hpost.
    change (Ascii.eqb "}" "{") with false. change (Ascii.eqb "}" "}") with true.
    cbv iota. destruct (Ascii.eqb d "}"); [discriminate | reflexivity].
  - destruct rest as [|d rest]; [reflexivity|].
    cbn [PyStr.startswith] in Hstart. rewrite Ascii.eqb_sym in Hstart.
    destruct (Ascii.eqb d "{") eqn:E; [discriminate|].
    cbn [append]. rewrite (scan_opens_field _ _ _ _ _ E).
    now apply scan_unclosed.
  - destruct name as [|d name]; [discriminate|].
    assert (E : Ascii.eqb d "{" = false).
    { simpl in Hname. now destruct (Ascii.eqb d "{"). }
    cbn [append]. rewrite (scan_opens_field _ _ _ _ _ E).
    now apply (scan_brace_in_name ext _ (String d name)).
Qed.

Lemma brace_free_formats (ext : ExtendedField) (cfg : Config) (t : string) :
  brace_free t = true -> format_template ext cfg t = Some t.
Proof.
  intros H. unfold format_template.
  rewrite <- (append_nil_r t) at 1. now rewrite (scan_literal _ _ _ H).
Qed.

(** C9, amended: a template without any brace resolves to itself, and so
    does every template whose substitution raises.  The substitution raises,
    after any beginning of brace-free text, recognized placeholders and
    doubled braces, on an unknown, empty or numeric field, on a closing brace
    on its own, on an opening brace that is never closed, and on an opening
    brace inside a field name.  The resolution always yields a URL.  A
    well-formed template is not always left as it is: in one made of
    brace-free text, recognized placeholders and doubled braces, every
    doubled brace comes out as a single one. *)
Theorem unresolved_template_kept (ext : ExtendedField) (cfg : Config) (t : string) :
  (brace_free t = true \/ unresolved cfg t \/ format_template ext cfg t = None ->
   resolve_url ext cfg t = t)
  /\ (unresolved cfg t -> format_template ext cfg t = None)
  /\ (forall ps, piece_literals_brace_free ps = true ->
        resolve_url ext cfg (template_of_pieces ps) = substituted_pieces cfg ps).
Proof.
  unfold resolve_url. split; [|split].
  - intros [H | [H | H]].
    + now rewrite (brace_free_formats ext cfg t H).
    + now rewrite (unresolved_raises ext cfg t H).
    + now rewrite H.
  - apply unresolved_raises.
  - intros ps Hps. unfold format_template.
    rewrite <- (append_nil_r (template_of_pieces ps)) at 1.
    now rewrite (scan_pieces ext cfg ps Hps).
Qed.

(** * Further properties *)

(** ** Stripping and splitting *)








Lemma lstrip_spaces (s : string) :
  all_chars PyStr.is_ascii_space s = true -> PyStr.ascii_lstrip s = "".
Proof.
  induction s as [|c s IH]; simpl; [reflexivity|].
  intros H. apply andb_true_iff in H as [H1 H2]. now rewrite H1, IH.
Qed.

Lemma strip_spaces (s : string) :
  all_chars PyStr.is_ascii_space s = true -> PyStr.ascii_strip s = "".
Proof. intros H. unfold PyStr.ascii_strip. now rewrite lstrip_spaces. Qed.

Lemma split_not_nil (sep : ascii) (s : string) : PyStr.split sep s <> [].
Proof.
  destruct s as [|c s]; simpl; [discriminate|].
  destruct (Ascii.eqb c sep); [discriminate|].
  destruct (PyStr.split sep s); discriminate.
Qed.

Lemma split_length (sep : ascii) (s : string) :
  List.length (PyStr.split sep s) = S (count_char sep s).
Proof.
  induction s as [|c s IH]; simpl; [reflexivity|].
  destruct (Ascii.eqb c sep); simpl; [now rewrite IH|].
  destruct (PyStr.split sep s); simpl in *; [discriminate | exact IH].
Qed.


Lemma split_no_sep_id (sep : ascii) (s : string) :
  PyStr.has_char sep s = false -> PyStr.split sep s = [s].
Proof.
  induction s as [|c s IH]; simpl; [reflexivity|].
  intros H. apply orb_false_iff in H as [H1 H2]. now rewrite H1, (IH H2).
Qed.

Lemma split_app_sep (sep : ascii) (a rest : string) :
  PyStr.has_char sep a = false ->
  PyStr.split sep (a ++ String sep rest) = a :: PyStr.split sep rest.
Proof.
  induction a as [|c a IH]; simpl.
  - intros _. now rewrite Ascii.eqb_refl.
  - intros H. apply orb_false_iff in H as [H1 H2]. now rewrite H1, (IH H2).
Qed.

Lemma split_spaces (sep : ascii) (s : string) :
  all_chars (fun c => (Ascii.eqb c sep || PyStr.is_ascii_space c)%bool) s = true ->
  Forall (fun p => all_chars PyStr.is_ascii_space p = true) (PyStr.split sep s).
Proof.
  induction s as [|c s IH]; simpl; [repeat constructor|].
  intros H. apply andb_true_iff in H as [H1 H2]. specialize (IH H2).
  destruct (Ascii.eqb c sep) eqn:E; [constructor; [reflexivity | exact IH]|].
  simpl in H1.
  destruct (PyStr.split sep s) as [|p ps]; [repeat constructor; simpl; now rewrite H1|].
  inversion IH as [|? ? Hp Hps]; subst. constructor; [|exact Hps].
  simpl. now rewrite H1, Hp.
Qed.

Lemma count_char_app (c : ascii) (a b : string) :
  count_char c (a ++ b) = (count_char c a + count_char c b)%nat.
Proof.
  induction a as [|d a IH]; simpl; [reflexivity|].
  destruct (Ascii.eqb d c); simpl; now rewrite IH.
Qed.

(** ** Configuration lists *)



(** X2: a value that is not empty but holds only commas and ASCII whitespace
    gives the empty list, not the default list.  The fact of [str.strip]
    used: a text of ASCII whitespace is stripped to the empty text. *)
Theorem parse_list_only_separators (env : Env) (name raw : string)
    (default_list : list string) :
  strip_blank ->
  env name = Some raw ->
  PyStr.is_empty raw = false ->
  all_chars (fun c => (Ascii.eqb c "," || PyStr.is_ascii_space c)%bool) raw = true ->
  parse_list env name default_list = [].
Proof.
  intros Hblank Henv Hne Hall. unfold parse_list, get_env. rewrite Henv, Hne, Hne.
  pose proof (split_spaces "," raw Hall) as Hp.
  induction Hp as [|p ps Hp _ IH]; [reflexivity|].
  cbn [filter]. now rewrite (Hblank p Hp).
Qed.

Lemma split_join (sep : ascii) (items : list string) :
  items <> [] ->
  Forall (fun i => PyStr.has_char sep i = false) items ->
  PyStr.split sep (PyStr.join (String sep "") items) = items.
Proof.
  induction items as [|i items IH]; [contradiction|].
  intros _ Hall. inversion Hall as [|? ? Hi Hrest]; subst.
  destruct items as [|j items].
  - simpl. now apply split_no_sep_id.
  - change (PyStr.join (String sep "") (i :: j :: items))
      with (i ++ String sep (PyStr.join (String sep "") (j :: items))).
    rewrite (split_app_sep _ _ _ Hi), IH; [reflexivity | discriminate | exact Hrest].
Qed.

(** X3: round trip: a non-empty list of clean items, written with commas
    between them, is read back as the same list. *)
Theorem parse_list_join (env : Env) (name : string) (items default_list : list string) :
  items <> [] ->
  Forall clean_item items ->
  env name = Some (PyStr.join "," items) ->
  parse_list env name default_list = items.
Proof.
  intros Hne Hall Henv.
  assert (Hraw : PyStr.is_empty (PyStr.join "," items) = false).
  { destruct items as [|i items]; [contradiction|].
    inversion Hall as [|? ? [Hi _] _]; subst.
    destruct i; [discriminate|]. destruct items; reflexivity. }
  unfold parse_list, get_env. rewrite Henv, Hraw, Hraw.
  rewrite split_join; [|exact Hne|].
  - clear Hne Henv Hraw. induction Hall as [|i items [Hi [Hs _]] _ IH]; [reflexivity|].
    cbn [filter]. rewrite Hs, Hi. cbn [negb map]. now rewrite Hs, IH.
  - apply Forall_forall. intros i Hin. rewrite Forall_forall in Hall.
    now destruct (Hall i Hin) as [_ [_ H]].
Qed.

(** ** The search template file *)




(** ** Site labels *)

Lemma hostname_of_defined (url : string) : exists h, hostname_of url = Some h.
Proof.
  unfold hostname_of. destruct (PyStr.contains "//" url) eqn:E; [|now exists url].
  apply contains_spec in E as [pre [post ->]].
  destruct (nth_error (PyStr.split "/" (pre ++ "//" ++ post)) 2) as [h|] eqn:N;
    [now exists h|].
  apply nth_error_None in N. rewrite split_length, count_char_app in N.
  simpl in N. lia.
Qed.

Lemma label_of_hostname_cases (h : string) :
  In (label_of_hostname h) known_labels \/ label_of_hostname h = h.
Proof.
  unfold label_of_hostname.
  repeat match goal with
         | |- context [if PyStr.contains ?n h then _ else _] =>
             destruct (PyStr.contains n h);
             [left; unfold known_labels, In; auto 8 using eq_refl|]
         end.
  now right.
Qed.

(** X5: [detect_site_label] never fails on its index: whenever the URL holds
    a double slash it has a third piece; and the label is one of the six site
    names or the hostname itself. *)
Theorem detect_site_label_defined (url : string) :
  exists h, hostname_of url = Some h
            /\ detect_site_label url = Some (label_of_hostname h)
            /\ (In (label_of_hostname h) known_labels \/ label_of_hostname h = h).
Proof.
  destruct (hostname_of_defined url) as [h Hh]. exists h.
  split; [exact Hh|]. split; [|apply label_of_hostname_cases].
  unfold detect_site_label. now rewrite Hh.
Qed.

(** X6: for a URL made of a scheme, a double slash, a host and then nothing
    or a slash and more, the label is decided by the host alone: neither the
    scheme nor the path nor the query takes part. *)
Theorem detect_site_label_host_only (scheme host rest : string) :
  PyStr.has_char "/" scheme = false ->
  PyStr.has_char "/" host = false ->
  rest = "" \/ (exists path, rest = "/" ++ path) ->
  detect_site_label (scheme ++ "//" ++ host ++ rest) = Some (label_of_hostname host).
Proof.
  intros Hs Hh Hrest. unfold detect_site_label, hostname_of.
  assert (C : PyStr.contains "//" (scheme ++ "//" ++ host ++ rest) = true).
  { apply contains_spec. now exists scheme, (host ++ rest). }
  rewrite C.
  change (scheme ++ "//" ++ host ++ rest) with (scheme ++ String "/" ("" ++ String "/" (host ++ rest))).
  rewrite (split_app_sep "/" scheme _ Hs), (split_app_sep "/" "" _ eq_refl).
  destruct Hrest as [-> | [path ->]].
  - rewrite append_nil_r, (split_no_sep_id "/" host Hh). reflexivity.
  - change (host ++ "/" ++ path) with (host ++ String "/" path).
    rewrite (split_app_sep "/" host _ Hh). reflexivity.
Qed.

(** ** More on the classifier *)

Lemma text_contains_keywords_iff (t : string) (ks : list string) :
  text_contains_keywords t ks = true <->
  t <> "" /\ exists k, In k ks /\ PyStr.Substring (lower k) (lower t).
Proof.
  unfold text_contains_keywords. destruct t as [|c t].
  - simpl. split; [discriminate | intros [H _]; now contradiction H].
  - cbn [PyStr.is_empty]. rewrite any_lower_in_spec. split.
    + intros [k [Hin Hc]]. split; [discriminate|]. exists k. split; [exact Hin|].
      now apply contains_spec.
    + intros [_ [k [Hin Hc]]]. exists k. split; [exact Hin | now apply contains_spec].
Qed.

(** X7: [text_contains_keywords] is true exactly for a non-empty text in
    which the lower-cased form of some keyword occurs, the text taken in
    lower case; so the empty text never matches, not even an empty keyword,
    no text matches an empty keyword list, and an empty keyword, which
    lower-casing leaves empty, matches every non-empty text. *)
Theorem text_contains_keywords_spec (t : string) (ks : list string) :
  (text_contains_keywords t ks = true <->
     t <> "" /\ exists k, In k ks /\ PyStr.Substring (lower k) (lower t))
  /\ text_contains_keywords "" ks = false
  /\ text_contains_keywords t [] = false
  /\ (In "" ks -> lower "" = "" ->
      text_contains_keywords t ks = negb (PyStr.is_empty t)).
Proof.
  split; [apply text_contains_keywords_iff|]. split; [reflexivity|]. split.
  - unfold text_contains_keywords. destruct (PyStr.is_empty t); reflexivity.
  - intros Hin Hempty. destruct t as [|c t]; [reflexivity|].
    apply text_contains_keywords_iff. split; [discriminate|].
    exists "". split; [exact Hin|]. rewrite Hempty.
    exists "", (lower (String c t)). reflexivity.
Qed.

Lemma any_lower_in_map (t : string) (ks ks' : list string) :
  map lower ks = map lower ks' -> any_lower_in t ks = any_lower_in t ks'.
Proof.
  revert ks'. induction ks as [|k ks IH]; intros [|k' ks'] H; try discriminate; [reflexivity|].
  simpl in H. injection H as Hk Hks. simpl. rewrite Hk, (IH ks' Hks). reflexivity.
Qed.

Lemma brand_hit_map (cfg cfg' : Config) (tp : string) :
  map lower (CAR_BRANDS_MODELS cfg) = map lower (CAR_BRANDS_MODELS cfg') ->
  brand_hit cfg tp = brand_hit cfg' tp.
Proof.
  unfold brand_hit. generalize (CAR_BRANDS_MODELS cfg), (CAR_BRANDS_MODELS cfg').
  intros bs. induction bs as [|b bs IH]; intros [|b' bs'] H; try discriminate; [reflexivity|].
  simpl in H. injection H as Hb Hbs. simpl. rewrite Hb, (IH bs' Hbs). reflexivity.
Qed.

(** X8: the classifier sees a listing and the phrases only through
    [str.lower]: two listings whose texts (title, one space, description)
    are lower-cased to the same text, under two configurations whose brand
    lists and keyword lists are lower-cased to the same lists, get the same
    verdict. *)
Theorem qualifies_case_insensitive (cfg cfg' : Config) (t d t' d' : string) :
  lower (t ++ " " ++ d)%string = lower (t' ++ " " ++ d')%string ->
  map lower (CAR_BRANDS_MODELS cfg) = map lower (CAR_BRANDS_MODELS cfg') ->
  map lower (KEYWORDS cfg) = map lower (KEYWORDS cfg') ->
  qualifies cfg t d = qualifies cfg' t' d'.
Proof.
  intros Htext Hb Hk.
  assert (E : textpool t d = textpool t' d') by (now rewrite !textpool_eq).
  unfold qualifies, kw_hit, text_contains_keywords. rewrite E.
  now rewrite (brand_hit_map cfg cfg' _ Hb), (any_lower_in_map _ _ _ Hk).
Qed.

Lemma brand_hit_incl (cfg cfg' : Config) (tp : string) :
  incl (CAR_BRANDS_MODELS cfg) (CAR_BRANDS_MODELS cfg') ->
  brand_hit cfg tp = true -> brand_hit cfg' tp = true.
Proof.
  unfold brand_hit. intros Hincl H.
  apply existsb_exists in H as [b [Hin Hc]]. apply existsb_exists.
  exists b. split; [now apply Hincl | exact Hc].
Qed.

(** X9: configuring more never loses a match: a listing that qualifies
    still qualifies under a configuration that holds every brand phrase and
    every keyword of the first one, and others. *)
Theorem qualifies_monotone (cfg cfg' : Config) (t d : string) :
  incl (CAR_BRANDS_MODELS cfg) (CAR_BRANDS_MODELS cfg') ->
  incl (KEYWORDS cfg) (KEYWORDS cfg') ->
  qualifies cfg t d = true ->
  qualifies cfg' t d = true.
Proof.
  intros Hb Hk Hq. unfold qualifies in *.
  apply orb_true_iff in Hq as [Hq | Hq]; apply orb_true_iff.
  - left. now apply (brand_hit_incl cfg cfg').
  - right. unfold kw_hit in *.
    apply text_contains_keywords_iff in Hq as [Hne [k [Hin Hs]]].
    apply text_contains_keywords_iff. split; [exact Hne|].
    exists k. split; [now apply Hk | exact Hs].
Qed.

(** ** More on the table and the keys *)

Open Scope list_scope.

(** X10: insert and look up: after [mark_seen] the key is seen and its row is
    the one that was there before, or the new row when there was none; the
    row of every other key is what it was. *)
Theorem mark_seen_lookup (db : DB) (k t s p : string) (now : Z) :
  is_seen (mark_seen db k t s p now) k = true
  /\ select_link (mark_seen db k t s p now) k
     = match select_link db k with
       | Some r => Some r
       | None => Some (new_row k t s p now)
       end
  /\ (forall k0, k0 <> k ->
        select_link (mark_seen db k t s p now) k0 = select_link db k0).
Proof.
  split; [apply mark_seen_seen|]. unfold mark_seen, is_seen. split.
  - destruct (select_link db k) as [r|] eqn:E; [exact E|].
    rewrite select_link_app, E. unfold select_link. simpl. now rewrite String.eqb_refl.
  - intros k0 Hne. destruct (select_link db k); [reflexivity|].
    rewrite select_link_app. destruct (select_link db k0); [reflexivity|].
    unfold select_link. simpl. destruct (String.eqb k k0) eqn:E; [|reflexivity].
    apply String.eqb_eq in E. congruence.
Qed.

Lemma has_char_before (c sep : ascii) (s : string) :
  PyStr.has_char c s = false -> PyStr.has_char c (PyStr.before sep s) = false.
Proof.
  induction s as [|d s IH]; simpl; [reflexivity|].
  intros H. apply orb_false_iff in H as [H1 H2].
  destruct (Ascii.eqb d sep); [reflexivity|]. simpl. now rewrite H1, IH.
Qed.

Lemma before_fixed_iff (sep : ascii) (s : string) :
  PyStr.before sep s = s <-> PyStr.has_char sep s = false.
Proof.
  split; [|apply before_id].
  intros H. rewrite <- H. apply before_no_sep.
Qed.

Lemma before_length (sep : ascii) (s : string) :
  (String.length (PyStr.before sep s) <= String.length s)%nat.
Proof.
  induction s as [|c s IH]; simpl; [lia|].
  destruct (Ascii.eqb c sep); simpl; lia.
Qed.

(** X11: normalizing a link twice is normalizing it once; a link is its own
    key exactly when it holds no question mark; and the key is never longer
    than the link. *)
Theorem link_norm_idempotent (l : string) :
  link_norm (link_norm l) = link_norm l
  /\ (link_norm l = l <-> PyStr.has_char "?" l = false)
  /\ (String.length (link_norm l) <= String.length l)%nat.
Proof.
  unfold link_norm. split; [|split].
  - apply before_id, before_no_sep.
  - apply before_fixed_iff.
  - apply before_length.
Qed.

(** ** More on the gateway call *)

Lemma remove_char_gone (c : ascii) (s : string) :
  PyStr.has_char c (PyStr.remove_char c s) = false.
Proof.
  induction s as [|d s IH]; simpl; [reflexivity|].
  destruct (Ascii.eqb d c) eqn:E; [exact IH|]. simpl. now rewrite E, IH.
Qed.

Lemma tail_no_char (c : ascii) (s : string) :
  PyStr.has_char c s = false -> PyStr.has_char c (PyStr.tail s) = false.
Proof.
  destruct s as [|d s]; simpl; [reflexivity|].
  intros H. now apply orb_false_iff in H as [_ H].
Qed.

(** X12: the phone number sent to the gateway never holds a space, whatever
    the configured number and the setting of the plus-stripping flag. *)
Theorem phone_param_no_space (cfg : Config) :
  PyStr.has_char " " (phone_param cfg) = false.
Proof.
  unfold phone_param. cbv zeta.
  destruct (_ && _)%bool; [apply tail_no_char|]; apply remove_char_gone.
Qed.

(** The failure classes of [send_whatsapp]: no API key or no phone number,
    a request that raises, a status other than 200. *)
Lemma send_whatsapp_failures (cfg : Config) (gw : Gateway) (msg : string) :
  (CALLMEBOT_APIKEY cfg = "" \/ PHONE cfg = "" -> send_whatsapp cfg gw msg = false)
  /\ (gw (payload cfg msg) = None -> send_whatsapp cfg gw msg = false)
  /\ (forall r, gw (payload cfg msg) = Some r -> status_code r <> 200 ->
        send_whatsapp cfg gw msg = false).
Proof.
  split; [|split].
  - intros [H | H]; unfold send_whatsapp; rewrite H; simpl; [reflexivity|].
    now rewrite orb_true_r.
  - intros H. unfold send_whatsapp. rewrite H. now destruct (_ || _)%bool.
  - intros r Hr Hs. unfold send_whatsapp. rewrite Hr.
    destruct (_ || _)%bool; [reflexivity|].
    destruct (Z.eqb_spec (status_code r) 200); [contradiction | reflexivity].
Qed.


(** ** More on the dispatch loop *)

Lemma dispatch_all_fail (cfg : Config) (gw : nat -> Gateway) (ms : list NewMatch) :
  (forall n msg, send_whatsapp cfg (gw n) msg = false) ->
  forall count log, count < MAX_SEND_PER_RUN cfg ->
  dispatch cfg gw ms count log = (count, log ++ failed ms).
Proof.
  intros Hfail. induction ms as [|e rest IH]; intros count log Hlt.
  - simpl. now rewrite app_nil_r.
  - cbn [dispatch]. destruct (Z.geb_spec count (MAX_SEND_PER_RUN cfg)); [lia|].
    rewrite Hfail, (IH count _ Hlt), <- app_assoc. reflexivity.
Qed.

Lemma dispatch_all_ok (cfg : Config) (gw : nat -> Gateway) (ms : list NewMatch) :
  (forall n msg, send_whatsapp cfg (gw n) msg = true) ->
  forall count log,
  dispatch cfg gw ms count log
  = (count + Z.of_nat (List.length (firstn (Z.to_nat (MAX_SEND_PER_RUN cfg - count)) ms)),
     log ++ delivered (firstn (Z.to_nat (MAX_SEND_PER_RUN cfg - count)) ms)).
Proof.
  intros Hok. induction ms as [|e rest IH]; intros count log.
  - rewrite firstn_nil. simpl. now rewrite app_nil_r, Z.add_0_r.
  - cbn [dispatch]. destruct (Z.geb_spec count (MAX_SEND_PER_RUN cfg)) as [Hge | Hlt].
    + replace (Z.to_nat (MAX_SEND_PER_RUN cfg - count)) with O by lia.
      simpl. now rewrite app_nil_r, Z.add_0_r.
    + rewrite Hok, IH.
      replace (Z.to_nat (MAX_SEND_PER_RUN cfg - count))
        with (S (Z.to_nat (MAX_SEND_PER_RUN cfg - (count + 1)))) by lia.
      cbn [firstn List.length delivered map]. rewrite <- app_assoc. f_equal. lia.
Qed.

(** X13: when the API key or the phone number is missing, or the gateway
    raises on every request, or it answers every request with a status other
    than 200, and the cap is positive, the run calls [send_whatsapp] once for
    every new match, in discovery order, never a second time, and counts
    nothing. *)
Theorem run_all_sends_fail (cfg : Config) (clock : Clock) (gw : nat -> Gateway)
    (file : option DB) (founds : list (list Card)) :
  CALLMEBOT_APIKEY cfg = "" \/ PHONE cfg = ""
  \/ (forall n p, gw n p = None)
  \/ (forall n p r, gw n p = Some r -> status_code r <> 200) ->
  0 < MAX_SEND_PER_RUN cfg ->
  res_attempts (run_once cfg clock gw file founds)
    = failed (res_all_new (run_once cfg clock gw file founds))
  /\ res_count (run_once cfg clock gw file founds) = 0.
Proof.
  intros Hcause Hcap.
  assert (Hfail : forall n msg, send_whatsapp cfg (gw n) msg = false).
  { intros n msg. destruct (send_whatsapp_failures cfg (gw n) msg) as [F1 [F2 F3]].
    destruct Hcause as [H | [H | [H | H]]]; [apply F1; now left | apply F1; now right
                                            | apply F2, H |].
    destruct (gw n (payload cfg msg)) as [r|] eqn:E; [|now apply F2].
    apply (F3 r eq_refl), (H n _ r E). }
  destruct (run_once_dispatch cfg clock gw file founds) as [Hc Ha].
  cbv zeta in *. rewrite Hc, Ha, (dispatch_all_fail cfg gw _ Hfail 0 [] Hcap).
  split; reflexivity.
Qed.

(** X14: when every send goes through, the run sends exactly the first
    MAX_SEND_PER_RUN new matches, in discovery order (all of them when they
    are fewer, none for a cap of zero or below), and the counter is their
    number. *)
Theorem run_all_sends_ok (cfg : Config) (clock : Clock) (gw : nat -> Gateway)
    (file : option DB) (founds : list (list Card)) :
  (forall n msg, send_whatsapp cfg (gw n) msg = true) ->
  res_attempts (run_once cfg clock gw file founds)
    = delivered (firstn (Z.to_nat (MAX_SEND_PER_RUN cfg))
                   (res_all_new (run_once cfg clock gw file founds)))
  /\ res_count (run_once cfg clock gw file founds)
     = Z.of_nat (Nat.min (Z.to_nat (MAX_SEND_PER_RUN cfg))
                   (List.length (res_all_new (run_once cfg clock gw file founds)))).
Proof.
  intros Hok.
  destruct (run_once_dispatch cfg clock gw file founds) as [Hc Ha].
  cbv zeta in *. rewrite Hc, Ha, (dispatch_all_ok cfg gw _ Hok 0 []).
  rewrite Z.sub_0_r, length_firstn. split; reflexivity.
Qed.

(** ** More on the whole run *)




Lemma NoDup_snoc (A : Type) (l : list A) (x : A) :
  NoDup l -> ~ In x l -> NoDup (l ++ [x]).
Proof.
  induction 1 as [|y l Hy Hl IH]; intros Hx; simpl.
  - constructor; [intros [] | constructor].
  - constructor.
    + intros Hin. apply in_app_or in Hin as [Hin | [<- | []]]; [contradiction|].
      apply Hx. now left.
    + apply IH. intros Hin. apply Hx. now right.
Qed.

Lemma run_links_invariant (cfg : Config) (clock : Clock) (file : option DB)
    (founds : list (list Card)) :
  let st := process_templates cfg clock (start_state file) founds in
  NoDup (map nm_link (st_all_new st))
  /\ (forall k, In k (map nm_link (st_all_new st)) -> is_seen (st_db st) k = true).
Proof.
  apply (process_templates_inv cfg clock
           (fun s => NoDup (map nm_link (st_all_new s))
                     /\ (forall k, In k (map nm_link (st_all_new s)) ->
                           is_seen (st_db s) k = true))).
  - intros st c _ [Hnd Hseen].
    destruct (process_card_cases cfg clock st c) as [-> | [l [_ [_ [Hs [_ ->]]]]]];
      [now split|].
    cbn [st_db st_all_new]. rewrite map_app. cbn [map new_match nm_link]. split.
    + apply NoDup_snoc; [exact Hnd|]. intros Hin. rewrite (Hseen _ Hin) in Hs. discriminate.
    + intros k Hin. rewrite is_seen_app. apply in_app_or in Hin as [Hin | [<- | []]].
      * now rewrite (Hseen k Hin).
      * unfold is_seen at 2, select_link. simpl. rewrite String.eqb_refl. apply orb_true_r.
  - split; [constructor | intros k []].
Qed.

(** X16: no link occurs twice among the new matches of a run, so no listing
    is put in the log or sent twice within one run, however often the sites
    return it. *)
Theorem run_new_links_distinct (cfg : Config) (clock : Clock) (gw : nat -> Gateway)
    (file : option DB) (founds : list (list Card)) :
  NoDup (map nm_link (res_all_new (run_once cfg clock gw file founds))).
Proof.
  destruct (run_once_state cfg clock gw file founds) as [_ ->].
  apply run_links_invariant.
Qed.

(** X17: a run keeps the keys of the table pairwise distinct. *)
Theorem run_keeps_keys_unique (cfg : Config) (clock : Clock) (gw : nat -> Gateway)
    (file : option DB) (founds : list (list Card)) :
  pk_unique (init_db file) = true ->
  pk_unique (res_db (run_once cfg clock gw file founds)) = true.
Proof.
  intros Hu. destruct (run_once_state cfg clock gw file founds) as [-> _].
  apply (process_templates_inv cfg clock (fun s => pk_unique (st_db s) = true)).
  - intros st c _. apply process_card_pk_unique.
  - exact Hu.
Qed.

Lemma is_seen_keys (db db' : DB) (k : string) :
  map row_link db = map row_link db' -> is_seen db k = is_seen db' k.
Proof.
  unfold is_seen, select_link. revert db'.
  induction db as [|r db IH]; intros [|r' db'] H; try discriminate; [reflexivity|].
  simpl in H. injection H as Hr Hdb. simpl. rewrite Hr.
  destruct (String.eqb (row_link r') k); [reflexivity | now apply IH].
Qed.

Lemma process_card_same_keys (cfg : Config) (clock clock' : Clock) (st st' : RunState)
    (c : Card) :
  map row_link (st_db st) = map row_link (st_db st') ->
  exists added,
    st_all_new (process_card cfg clock st c) = st_all_new st ++ added
    /\ st_all_new (process_card cfg clock' st' c) = st_all_new st' ++ added
    /\ map row_link (st_db (process_card cfg clock st c))
       = map row_link (st_db (process_card cfg clock' st' c)).
Proof.
  intros Hk. unfold process_card.
  destruct (card_link c) as [l|]; [|exists []; now rewrite !app_nil_r].
  destruct (PyStr.is_empty l); [exists []; now rewrite !app_nil_r|].
  rewrite <- (is_seen_keys _ _ (link_norm l) Hk).
  destruct (is_seen (st_db st) (link_norm l)) eqn:Es; [exists []; now rewrite !app_nil_r|].
  destruct (qualifies cfg (card_title c) (card_desc c));
    [|exists []; now rewrite !app_nil_r].
  exists [new_match c (link_norm l)]. cbn [st_all_new st_db].
  split; [reflexivity|]. split; [reflexivity|].
  rewrite !mark_seen_absent; [| now rewrite <- (is_seen_keys _ _ _ Hk) | exact Es].
  rewrite !map_app. simpl. now rewrite Hk.
Qed.

Lemma process_found_same_keys (cfg : Config) (clock clock' : Clock) (cards : list Card) :
  forall st st',
  map row_link (st_db st) = map row_link (st_db st') ->
  exists added,
    st_all_new (process_found cfg clock st cards) = st_all_new st ++ added
    /\ st_all_new (process_found cfg clock' st' cards) = st_all_new st' ++ added
    /\ map row_link (st_db (process_found cfg clock st cards))
       = map row_link (st_db (process_found cfg clock' st' cards)).
Proof.
  induction cards as [|c cards IH]; intros st st' Hk.
  - exists []. now rewrite !app_nil_r.
  - destruct (process_card_same_keys cfg clock clock' st st' c Hk) as [a1 [H1 [H1' Hk1]]].
    destruct (IH _ _ Hk1) as [a2 [H2 [H2' Hk2]]].
    exists (a1 ++ a2). unfold process_found in *. cbn [fold_left].
    rewrite H2, H2', H1, H1', <- !app_assoc. auto.
Qed.

Lemma process_templates_app (cfg : Config) (clock : Clock) (st : RunState)
    (founds1 founds2 : list (list Card)) :
  process_templates cfg clock st (founds1 ++ founds2)
  = process_templates cfg clock (process_templates cfg clock st founds1) founds2.
Proof. unfold process_templates. apply fold_left_app. Qed.

(** X18: cutting the template list in two and running the second part as a
    later run, from the table the first run left, finds the same new matches
    as one run over the whole list, in the same order, and leaves the same
    keys in the table (the clocks and gateways of the runs may differ). *)
Theorem run_split (cfg : Config) (clock clock2 : Clock) (gw gw1 gw2 : nat -> Gateway)
    (file : option DB) (founds1 founds2 : list (list Card)) :
  res_all_new (run_once cfg clock gw file (founds1 ++ founds2))
  = res_all_new (run_once cfg clock gw1 file founds1)
    ++ res_all_new (run_once cfg clock2 gw2
                      (Some (res_db (run_once cfg clock gw1 file founds1))) founds2)
  /\ map row_link (res_db (run_once cfg clock gw file (founds1 ++ founds2)))
     = map row_link (res_db (run_once cfg clock2 gw2
                      (Some (res_db (run_once cfg clock gw1 file founds1))) founds2)).
Proof.
  destruct (run_once_state cfg clock gw file (founds1 ++ founds2)) as [-> ->].
  destruct (run_once_state cfg clock gw1 file founds1) as [E1 ->]. rewrite E1.
  destruct (run_once_state cfg clock2 gw2
              (Some (st_db (process_templates cfg clock (start_state file) founds1)))
              founds2) as [-> ->].
  rewrite !process_templates_app.
  set (s1 := process_templates cfg clock (start_state file) founds1).
  rewrite !(process_templates_flat cfg _ _ founds2).
  destruct (process_found_same_keys cfg clock clock2 (List.concat founds2) s1
              (start_state (Some (st_db s1))) eq_refl) as [added [H1 [H2 Hk]]].
  rewrite H1, H2, Hk. split; reflexivity.
Qed.

Lemma no_phrases_no_match (cfg : Config) (t d : string) :
  CAR_BRANDS_MODELS cfg = [] -> KEYWORDS cfg = [] -> qualifies cfg t d = false.
Proof.
  intros Hb Hk. unfold qualifies, brand_hit, kw_hit, text_contains_keywords.
  rewrite Hb, Hk. simpl. now destruct (PyStr.is_empty (textpool t d)).
Qed.

(** X19: with an empty brand list and an empty keyword list a run records
    nothing and sends nothing, whatever the sites return. *)
Theorem run_without_phrases (cfg : Config) (clock : Clock) (gw : nat -> Gateway)
    (file : option DB) (founds : list (list Card)) :
  CAR_BRANDS_MODELS cfg = [] ->
  KEYWORDS cfg = [] ->
  run_once cfg clock gw file founds
  = {| res_db := init_db file; res_all_new := []; res_count := 0; res_attempts := [] |}.
Proof.
  intros Hb Hk.
  assert (Hfix : process_templates cfg clock (start_state file) founds = start_state file).
  { apply (process_templates_inv cfg clock (fun s => s = start_state file)); [|reflexivity].
    intros st c _ ->. apply process_card_not_qualifying.
    now apply no_phrases_no_match. }
  unfold run_once. rewrite Hfix. reflexivity.
Qed.

(** ** The audit log *)

Lemma csv_after_existing (clock : Clock) (runs : list (nat * list NewMatch)) :
  forall text,
  csv_after clock (Some text) runs = Some (text ++ all_rows clock runs)%string.
Proof.
  unfold csv_after. induction runs as [|[start ms] runs IH]; intros text.
  - simpl. now rewrite append_nil_r.
  - cbn [fold_left fst snd all_rows]. destruct ms as [|e ms].
    + cbn [append_csv csv_rows append]. apply IH.
    + cbn [append_csv]. cbv zeta. rewrite IH. now rewrite append_assoc.
Qed.

Lemma csv_after_absent (clock : Clock) (runs : list (nat * list NewMatch)) :
  match csv_after clock None runs with
  | None => List.concat (map snd runs) = []
  | Some text => text = (csv_header ++ all_rows clock runs)%string
  end.
Proof.
  induction runs as [|[start ms] runs IH]; [reflexivity|].
  destruct ms as [|e ms]; [exact IH|].
  unfold csv_after. cbn [fold_left append_csv fst snd all_rows]. cbv zeta.
  pose proof (csv_after_existing clock runs
                (csv_header ++ csv_rows clock start (e :: ms))%string) as H.
  unfold csv_after in H. rewrite H. now rewrite append_assoc.
Qed.

Lemma csv_after_no_match (clock : Clock) (runs : list (nat * list NewMatch))
    (file : option string) :
  List.concat (map snd runs) = [] -> csv_after clock file runs = file.
Proof.
  unfold csv_after. induction runs as [|[start ms] runs IH]; intros H; [reflexivity|].
  cbn [map snd List.concat] in H. apply app_eq_nil in H. destruct H as [-> H].
  cbn [fold_left append_csv fst snd]. now apply IH.
Qed.

(** X20: the audit log, as text, over any sequence of runs.  Starting
    without a file, the file is absent afterwards exactly when no run had a
    new match; once it exists it is the header line followed by the data
    lines of the runs in order, nothing else.  Starting from an existing
    file, its text is kept as it is and the data lines are appended to it:
    the header is never written to a file that exists, even when it holds
    none. *)
Theorem audit_log_header_once (clock : Clock) (runs : list (nat * list NewMatch))
    (old : string) :
  match csv_after clock None runs with
  | None => List.concat (map snd runs) = []
  | Some text => List.concat (map snd runs) <> []
                 /\ text = (csv_header ++ all_rows clock runs)%string
  end
  /\ csv_after clock (Some old) runs = Some (old ++ all_rows clock runs)%string.
Proof.
  split; [|apply csv_after_existing].
  pose proof (csv_after_absent clock runs) as H.
  destruct (csv_after clock None runs) as [text|] eqn:E; [|exact H].
  split; [|exact H].
  intros Hnone. rewrite (csv_after_no_match clock runs None Hnone) in E. discriminate E.
Qed.

(** ** More on the search templates *)

Open Scope string_scope.

(** X21: in a template of brace-free text, recognized placeholders and
    doubled braces, every placeholder is replaced by its value and every
    doubled brace comes out as a single one. *)
Theorem escaped_braces_collapse (ext : ExtendedField) (cfg : Config) (ps : list piece) :
  piece_literals_brace_free ps = true ->
  resolve_url ext cfg (template_of_pieces ps) = substituted_pieces cfg ps.
Proof.
  intros Hok. unfold resolve_url, format_template.
  rewrite <- (append_nil_r (template_of_pieces ps)) at 1.
  now rewrite (scan_pieces ext cfg ps Hok).
Qed.

(** X22: one unknown, empty or numeric field leaves the whole template as it
    is written: the recognized placeholders before and after it are not
    replaced either, and the doubled braces stay doubled. *)
Theorem unknown_field_voids_substitution (ext : ExtendedField) (cfg : Config)
    (ps : list piece) (name post : string) :
  piece_literals_brace_free ps = true ->
  bare_name name = true ->
  kwargs_get (first_part name) (format_kwargs cfg) = None ->
  resolve_url ext cfg (template_of_pieces ps ++ "{" ++ name ++ "}" ++ post)
  = template_of_pieces ps ++ "{" ++ name ++ "}" ++ post.
Proof.
  intros Hok Hname Hget. unfold resolve_url, format_template.
  rewrite (scan_pieces ext cfg ps Hok), (scan_field _ _ _ _ _ Hname).
  unfold render_field. now rewrite Hget.
Qed.

(** ** Parsers and scraping *)

Open Scope list_scope.

Lemma text_head_defined (elem : Element) (desc : string) :
  el_text elem = Some desc -> exists h, text_head elem = Some h.
Proof. unfold text_head. intros ->. eauto. Qed.

(** X23: the three parsers tolerate everything that is missing inside an
    element: they raise exactly when the text of the element itself cannot
    be read, and otherwise return a tuple whose description is that text. *)
Theorem parsers_tolerate_missing_fields (elem : Element) :
  match el_text elem with
  | None =>
      parse_mobile_listing elem = None
      /\ parse_autoscout_listing elem = None
      /\ parse_generic_listing elem = None
  | Some desc =>
      (exists title link price, parse_mobile_listing elem = Some (title, link, price, desc))
      /\ (exists title link price,
            parse_autoscout_listing elem = Some (title, link, price, desc))
      /\ (exists title link, parse_generic_listing elem = Some (title, link, "", desc))
  end.
Proof.
  unfold parse_mobile_listing, parse_autoscout_listing, parse_generic_listing, text_head.
  destruct (el_text elem) as [desc|] eqn:E.
  - split; [eauto|]. split; [eauto|].
    destruct (el_find elem TAG_NAME "a") as [a|]; [|eauto].
    destruct (el_attribute a "href") as [link|]; [|eauto].
    destruct (el_text a) as [a_text|]; [|eauto].
    destruct (PyStr.is_empty a_text); eauto.
  - split; [reflexivity|]. split; [reflexivity|].
    destruct (el_find elem TAG_NAME "a") as [a|]; [|reflexivity].
    destruct (el_attribute a "href") as [link|]; [|reflexivity].
    destruct (el_text a) as [a_text|]; [|reflexivity].
    destruct (PyStr.is_empty a_text); reflexivity.
Qed.

Lemma parse_each_spec (parse : Element -> option Parsed) (label : string)
    (elems : list Element) :
  forall results,
  exists added,
    fst (parse_each parse label elems results) = results ++ added
    /\ Forall (fun c => card_site c = label) added
    /\ (List.length added <= List.length elems)%nat
    /\ (snd (parse_each parse label elems results) = true ->
        List.length added = List.length elems).
Proof.
  induction elems as [|e elems IH]; intros results.
  - exists []. simpl. rewrite app_nil_r. repeat split; auto.
  - cbn [parse_each]. destruct (parse e) as [[[[title link] price] desc]|].
    + destruct (IH (results ++ [{| card_site := label; card_title := title;
                                   card_link := link; card_price := price;
                                   card_desc := desc |}]))
        as [added [H1 [H2 [H3 H4]]]].
      eexists (_ :: added). rewrite H1, <- app_assoc. split; [reflexivity|].
      split; [constructor; [reflexivity | exact H2]|].
      split; [simpl; lia|]. intros Hfl. simpl. now rewrite (H4 Hfl).
    + exists []. simpl. rewrite app_nil_r. repeat split; auto; [lia | discriminate].
Qed.

Lemma anchors_each_spec (label : string) (anchors : list Element) :
  forall results,
  exists added,
    anchors_each label anchors results = results ++ added
    /\ Forall (anchor_card label) added
    /\ (List.length added <= List.length anchors)%nat.
Proof.
  induction anchors as [|a anchors IH]; intros results.
  - exists []. simpl. rewrite app_nil_r. repeat split; auto.
  - cbn [anchors_each].
    destruct (el_attribute a "href") as [h|];
      [|exists []; simpl; rewrite app_nil_r; repeat split; auto; lia].
    cbv zeta.
    destruct (el_text a) as [text|];
      [|exists []; simpl; rewrite app_nil_r; repeat split; auto; lia].
    destruct (negb (PyStr.is_empty match h with Some v => v | None => "" end)
              && href_marked match h with Some v => v | None => "" end)%bool eqn:E.
    + apply andb_true_iff in E as [E1 E2]. apply negb_true_iff in E1.
      destruct (IH (results ++ [{| card_site := label; card_title := strip text;
                                   card_link := Some match h with Some v => v | None => "" end;
                                   card_price := ""; card_desc := text |}]))
        as [added [H1 [H2 H3]]].
      eexists (_ :: added). rewrite H1, <- app_assoc. split; [reflexivity|].
      split; [|simpl; lia].
      constructor; [|exact H2].
      repeat split. eexists. repeat split; eassumption.
    + destruct (IH results) as [added [H1 [H2 H3]]]. exists added.
      repeat split; auto. simpl. lia.
Qed.

Lemma anchors_fallback_spec (label : string) (page : Page) (results : list Card) :
  exists added,
    anchors_fallback label page results = results ++ added
    /\ Forall (anchor_card label) added
    /\ (List.length added <= 200)%nat.
Proof.
  unfold anchors_fallback. destruct (page CSS_SELECTOR "a") as [anchors|].
  - destruct (anchors_each_spec label (firstn 200 anchors) results) as [added [H1 [H2 H3]]].
    exists added. repeat split; auto.
    pose proof (firstn_le_length 200 anchors). lia.
  - exists []. rewrite app_nil_r. repeat split; auto. simpl. lia.
Qed.

Lemma site_block_spec (applies : bool) (elems : option (list Element))
    (parse : Element -> option Parsed) (label : string) (results : list Card) :
  site_block applies elems parse label results
  = if applies then
      match elems with
      | None => (results, false)
      | Some es => parse_each parse label es results
      end
    else (results, false).
Proof. reflexivity. Qed.

(** X24: the six [try] blocks of [scrape_site] amount to one table lookup and
    one loop: a label outside the table goes straight to the anchors
    fallback; for a label of the table, the cards of its elements are
    returned when the loop completes, and when the search for the elements or
    a parser raises, the cards made so far are kept and the anchors fallback
    appends to them. *)
Theorem scrape_loaded_by_table (label : string) (page : Page) :
  scrape_loaded label page
  = match flow_table label page with
    | None => anchors_fallback label page []
    | Some (None, _) => anchors_fallback label page []
    | Some (Some es, parse) =>
        if snd (parse_each parse label es [])
        then fst (parse_each parse label es [])
        else anchors_fallback label page (fst (parse_each parse label es []))
    end.
Proof.
  unfold scrape_loaded, flow_table. cbv zeta. rewrite !site_block_spec.
  destruct (String.eqb_spec label "mobile.de") as [-> | N1].
  { simpl String.eqb. cbv iota.
    destruct (page CSS_SELECTOR "div.cBox-body--resultitem") as [es|]; [|reflexivity].
    destruct (parse_each parse_mobile_listing "mobile.de" es []) as [res [|]]; reflexivity. }
  cbn [fst snd].
  destruct (String.eqb_spec label "autoscout24") as [-> | N2].
  { simpl String.eqb. cbv iota.
    destruct (page CSS_SELECTOR "article") as [es|]; [|reflexivity].
    destruct (parse_each parse_autoscout_listing "autoscout24" es []) as [res [|]];
      reflexivity. }
  cbn [fst snd].
  destruct (String.eqb_spec label "willhaben") as [-> | N3].
  { simpl String.eqb. cbv iota.
    destruct (first_or page "div.list-item" "div.ad") as [es|]; [|reflexivity].
    destruct (parse_each parse_generic_listing "willhaben" es []) as [res [|]];
      reflexivity. }
  cbn [fst snd].
  destruct (String.eqb_spec label "leboncoin") as [-> | N4].
  { simpl String.eqb. cbv iota.
    destruct (option_map (firstn 50)
                (first_or page "li[data-qa-id='aditem_container']" "section")) as [es|];
      [|reflexivity].
    destruct (parse_each parse_generic_listing "leboncoin" es []) as [res [|]];
      reflexivity. }
  cbn [fst snd].
  destruct (String.eqb_spec label "finn.no") as [-> | N5].
  { simpl String.eqb. cbv iota.
    destruct (page CSS_SELECTOR "article") as [es|]; [|reflexivity].
    destruct (parse_each parse_generic_listing "finn.no" es []) as [res [|]];
      reflexivity. }
  cbn [fst snd].
  destruct (String.eqb_spec label "blocket") as [-> | N6]; [|reflexivity].
  destruct (page CSS_SELECTOR "article") as [es|]; [|reflexivity].
  destruct (parse_each parse_generic_listing "blocket" es []) as [res [|]]; reflexivity.
Qed.

Lemma site_block_grows (applies : bool) (elems : option (list Element))
    (parse : Element -> option Parsed) (label : string) (results : list Card) :
  Forall (fun c => card_site c = label) results ->
  Forall (fun c => card_site c = label) (fst (site_block applies elems parse label results)).
Proof.
  intros H. unfold site_block. destruct applies; [|exact H].
  destruct elems as [es|]; [|exact H].
  destruct (parse_each_spec parse label es results) as [added [-> [Ha _]]].
  apply Forall_app. now split.
Qed.

Lemma anchor_card_site (label : string) (cards : list Card) :
  Forall (anchor_card label) cards -> Forall (fun c => card_site c = label) cards.
Proof.
  intros H. eapply Forall_impl; [|exact H]. now intros c [Hs _].
Qed.

Lemma scrape_loaded_site (label : string) (page : Page) :
  Forall (fun c => card_site c = label) (scrape_loaded label page).
Proof.
  unfold scrape_loaded. cbv zeta.
  set (r0 := site_block _ _ _ _ []).
  assert (H0 : Forall (fun c => card_site c = label) (fst r0))
    by (apply site_block_grows; constructor).
  destruct (snd r0); [exact H0|].
  set (r1 := site_block _ _ _ _ (fst r0)).
  assert (H1 : Forall (fun c => card_site c = label) (fst r1))
    by now apply site_block_grows.
  destruct (snd r1); [exact H1|].
  set (r2 := site_block _ _ _ _ (fst r1)).
  assert (H2 : Forall (fun c => card_site c = label) (fst r2))
    by now apply site_block_grows.
  destruct (snd r2); [exact H2|].
  set (r3 := site_block _ _ _ _ (fst r2)).
  assert (H3 : Forall (fun c => card_site c = label) (fst r3))
    by now apply site_block_grows.
  destruct (snd r3); [exact H3|].
  set (r4 := site_block _ _ _ _ (fst r3)).
  assert (H4 : Forall (fun c => card_site c = label) (fst r4))
    by now apply site_block_grows.
  destruct (snd r4); [exact H4|].
  set (r5 := site_block _ _ _ _ (fst r4)).
  assert (H5 : Forall (fun c => card_site c = label) (fst r5))
    by now apply site_block_grows.
  destruct (snd r5); [exact H5|].
  destruct (anchors_fallback_spec label page (fst r5)) as [added [-> [Ha _]]].
  apply Forall_app. split; [exact H5 | now apply anchor_card_site].
Qed.

(** X25: [scrape_site] always knows its label, and every card it returns
    carries the label of the URL as its site; when the page does not load,
    whichever way [driver.get] fails, the caller is left with no card. *)
Theorem scrape_site_cards_labelled (driver : Driver) (url : string) :
  exists label,
    detect_site_label url = Some label
    /\ Forall (fun c => card_site c = label) (scrape_found driver url)
    /\ (driver url = WebDriverFailed -> scrape_site driver url = Some [])
    /\ (driver url = OtherFailed -> scrape_site driver url = None)
    /\ (driver url = WebDriverFailed \/ driver url = OtherFailed ->
        scrape_found driver url = []).
Proof.
  destruct (hostname_of_defined url) as [h Hh].
  exists (label_of_hostname h).
  assert (Hl : detect_site_label url = Some (label_of_hostname h))
    by (unfold detect_site_label; now rewrite Hh).
  split; [exact Hl|]. unfold scrape_found, scrape_site. rewrite Hl.
  split; [|split; [|split]].
  - destruct (driver url) as [page| |]; [apply scrape_loaded_site | constructor | constructor].
  - now intros ->.
  - now intros ->.
  - intros [-> | ->]; reflexivity.
Qed.

Lemma unknown_label_tests (label : string) :
  ~ In label known_labels ->
  String.eqb label "mobile.de" = false /\ String.eqb label "autoscout24" = false
  /\ String.eqb label "willhaben" = false /\ String.eqb label "leboncoin" = false
  /\ String.eqb label "finn.no" = false /\ String.eqb label "blocket" = false.
Proof.
  intros H. repeat split; apply String.eqb_neq; intros ->; apply H; simpl; tauto.
Qed.

(** X26: for a site that has no flow of its own, [scrape_site] returns at
    most 200 cards, all from the anchors of the page: each has a non-empty
    link that holds one of the four path marks, an empty price, and the
    stripped anchor text as its title. *)
Theorem scrape_unknown_site (label : string) (page : Page) :
  ~ In label known_labels ->
  scrape_loaded label page = anchors_fallback label page []
  /\ Forall (anchor_card label) (scrape_loaded label page)
  /\ (List.length (scrape_loaded label page) <= 200)%nat.
Proof.
  intros Hun. destruct (unknown_label_tests label Hun) as [E1 [E2 [E3 [E4 [E5 E6]]]]].
  assert (E : scrape_loaded label page = anchors_fallback label page []).
  { unfold scrape_loaded. cbv zeta. rewrite !site_block_spec.
    rewrite E1. cbn [fst snd]. rewrite E2. cbn [fst snd]. rewrite E3. cbn [fst snd].
    rewrite E4. cbn [fst snd]. rewrite E5. cbn [fst snd]. rewrite E6. reflexivity. }
  split; [exact E|]. rewrite E.
  destruct (anchors_fallback_spec label page []) as [added [-> [Ha Hl]]].
  split; assumption.
Qed.

Lemma process_templates_skip_empty (cfg : Config) (clock : Clock) (st : RunState)
    (founds1 founds2 : list (list Card)) :
  process_templates cfg clock st (founds1 ++ [] :: founds2)
  = process_templates cfg clock st (founds1 ++ founds2).
Proof. now rewrite !process_templates_app. Qed.

(** X27: a site that fails to load does not disturb the run: whichever way
    [driver.get] fails for a template, the run ends as if the template were
    not in the file. *)
Theorem failed_site_skipped (cfg : Config) (clock : Clock) (gw : nat -> Gateway)
    (file : option DB) (driver : Driver) (url : string)
    (founds1 founds2 : list (list Card)) :
  driver url = WebDriverFailed \/ driver url = OtherFailed ->
  run_once cfg clock gw file (founds1 ++ scrape_found driver url :: founds2)
  = run_once cfg clock gw file (founds1 ++ founds2).
Proof.
  intros Hfail.
  assert (E : scrape_found driver url = []).
  { unfold scrape_found, scrape_site. destruct (hostname_of_defined url) as [h Hh].
    unfold detect_site_label. rewrite Hh. simpl. now destruct Hfail as [-> | ->]. }
  rewrite E. unfold run_once. now rewrite process_templates_skip_empty.
Qed.


End Pipeline.

(** * Instances

    The statements above hold for every [lower] and [strip]; the facts some
    of them ask for are facts of [str.lower] and [str.strip].  The two
    functions of [PyStr] used below agree with [str.lower] and [str.strip]
    on ASCII text, which is what the sample data are made of, and they have
    these facts too. *)

Lemma ascii_lower_idempotent : lower_idempotent PyStr.ascii_lower.
Proof. exact lower_idem. Qed.

Lemma ascii_lower_keeps_text : lower_keeps_text PyStr.ascii_lower.
Proof. intros [|c s] H; [reflexivity | discriminate H]. Qed.



Lemma ascii_strip_blank : strip_blank PyStr.ascii_strip.
Proof. exact strip_spaces. Qed.

Lemma mark_seen_insert_only_if_absent_witness :
  mark_seen (mark_seen [sample_row] "https://s/b" "VW Passat" "s" "7.500" 200)
            "https://s/b" "other" "t" "1" 300
  = [sample_row; new_row "https://s/b" "VW Passat" "s" "7.500" 200].
Proof.
  pose proof (mark_seen_insert_only_if_absent [sample_row]
                "https://s/b" "VW Passat" "s" "7.500" 200 "other" "t" "1" 300
                eq_refl) as [_ [H _]].
  rewrite H. reflexivity.
Defined.

Lemma classifier_or_policy_witness :
  qualifies PyStr.ascii_lower sample_cfg "bmw" "320D kombi" = true
  /\ process_card PyStr.ascii_lower sample_cfg sample_clock (start_state None) card_golf
     = start_state None.
Proof.
  destruct (classifier_or_policy PyStr.ascii_lower PyStr.ascii_strip sample_cfg
              sample_clock gw_flaky None sample_founds
              "bmw" "320D kombi" (start_state None) card_golf) as [Hiff [Hrej _]].
  split.
  - apply (Hiff ascii_lower_idempotent ascii_lower_keeps_text).
    left. exists "BMW 320d". split; [simpl; auto|].
    exists "", " kombi". reflexivity.
  - apply Hrej. reflexivity.
Defined.

Lemma query_string_dedup_witness :
  link_norm "https://s/a?x=1" = "https://s/a"
  /\ link_norm "https://s/a?x=2" = "https://s/a"
  /\ count_key (st_db (process_card PyStr.ascii_lower sample_cfg sample_clock
                         (start_state None) card_a1))
       "https://s/a" = 1%nat
  /\ process_card PyStr.ascii_lower sample_cfg sample_clock
       (process_card PyStr.ascii_lower sample_cfg sample_clock (start_state None) card_a1)
       card_a2
     = process_card PyStr.ascii_lower sample_cfg sample_clock (start_state None) card_a1.
Proof.
  destruct (query_string_dedup PyStr.ascii_lower sample_cfg sample_clock (start_state None)
              card_a1 card_a2 "https://s/a" "x=1" "x=2"
              eq_refl eq_refl eq_refl eq_refl eq_refl)
    as [_ [N1 [N2 [_ [Hc Hp]]]]].
  repeat split; assumption.
Defined.

(** C4, as stated, fails: the link [?x=1] is not empty, its key is, and the
    run records the empty key and sends a message for it. *)
Lemma empty_key_recorded_and_notified :
  card_link card_query_only = Some "?x=1"
  /\ link_norm "?x=1" = ""
  /\ is_seen (res_db (run_once PyStr.ascii_lower PyStr.ascii_strip sample_cfg sample_clock
                        (fun _ => gw_ok) None [[card_query_only]])) "" = true
  /\ map nm_link (res_all_new (run_once PyStr.ascii_lower PyStr.ascii_strip sample_cfg
                                 sample_clock (fun _ => gw_ok) None [[card_query_only]]))
     = [""]
  /\ map att_ok (res_attempts (run_once PyStr.ascii_lower PyStr.ascii_strip sample_cfg
                                 sample_clock (fun _ => gw_ok) None [[card_query_only]]))
     = [true].
Proof. repeat split. Qed.

Lemma empty_link_never_recorded_witness :
  process_card PyStr.ascii_lower sample_cfg sample_clock (start_state None) card_emptylink
  = start_state None
  /\ process_card PyStr.ascii_lower sample_cfg sample_clock (start_state None) card_nolink
     = start_state None.
Proof.
  split.
  - apply (empty_link_never_recorded PyStr.ascii_lower PyStr.ascii_strip sample_cfg
             sample_clock gw_flaky None sample_founds (start_state None) card_emptylink).
    right. reflexivity.
  - apply (empty_link_never_recorded PyStr.ascii_lower PyStr.ascii_strip sample_cfg
             sample_clock gw_flaky None sample_founds (start_state None) card_nolink).
    left. reflexivity.
Defined.

Example phone_param_ex : phone_param PyStr.ascii_strip sample_cfg = "491570000000".
Proof. reflexivity. Qed.

(** C7, as stated, fails: a response with status 200 whose body holds the
    marker after its first 300 characters is reported as a successful send. *)
Lemma late_marker_reported_as_success :
  status_code {| status_code := 200; text := late_marker_body |} = 200
  /\ PyStr.contains "APIKey is invalid" late_marker_body = true
  /\ send_whatsapp PyStr.ascii_lower PyStr.ascii_strip sample_cfg gw_late_marker
       "Neues Fahrzeug" = true.
Proof. vm_compute. repeat split. Qed.

Lemma send_success_needs_clean_snippet_witness :
  send_whatsapp PyStr.ascii_lower PyStr.ascii_strip sample_cfg gw_invalid_key
    "Neues Fahrzeug" = false.
Proof.
  destruct (send_success_needs_clean_snippet PyStr.ascii_lower PyStr.ascii_strip
              sample_cfg gw_invalid_key "Neues Fahrzeug")
    as [_ [H _]].
  apply (H {| status_code := 200; text := "<p>APIKey is invalid. Please check.</p>" |});
    reflexivity.
Defined.

Lemma placeholders_substituted_witness :
  resolve_url no_ext sample_cfg "https://x.test/search?year={year}&kw={kw}"
  = "https://x.test/search?year=2020&kw=unfall+blech".
Proof.
  exact (proj2 (placeholders_substituted no_ext sample_cfg
                  [Lit "https://x.test/search?year="; Field Year; Lit "&kw="; Field Kw]
                  eq_refl)).
Defined.

(** C9, as stated, fails: a template without any placeholder whose text holds
    doubled braces is rewritten, each pair becoming a single brace. *)
Lemma escaped_braces_rewritten :
  mentions_placeholder "https://x.test/?q={{a}}" = false
  /\ resolve_url no_ext sample_cfg "https://x.test/?q={{a}}" = "https://x.test/?q={a}"
  /\ "https://x.test/?q={a}" <> "https://x.test/?q={{a}}".
Proof. repeat split. discriminate. Qed.

Lemma unresolved_template_kept_witness :
  resolve_url no_ext sample_cfg "https://x.test/list" = "https://x.test/list"
  /\ resolve_url no_ext sample_cfg "https://x.test/search?y={jahr}&k={km}"
     = "https://x.test/search?y={jahr}&k={km}"
  /\ resolve_url no_ext sample_cfg "https://x.test/?y={year}&c={}"
     = "https://x.test/?y={year}&c={}"
  /\ resolve_url no_ext sample_cfg "https://x.test/?y={year}&k=}"
     = "https://x.test/?y={year}&k=}"
  /\ resolve_url no_ext sample_cfg "https://x.test/?y={year"
     = "https://x.test/?y={year"
  /\ resolve_url no_ext sample_cfg "https://x.test/?q={{a}}{"
     = "https://x.test/?q={{a}}{"
  /\ resolve_url no_ext sample_cfg "https://x.test/?y={year}&k={km{}"
     = "https://x.test/?y={year}&k={km{}"
  /\ format_template no_ext sample_cfg "https://x.test/?y={year" = None
  /\ resolve_url no_ext sample_cfg "https://x.test/?q={{a}}&y={year}"
     = "https://x.test/?q={a}&y=2020".
Proof.
  split; [|split; [|split; [|split; [|split; [|split; [|split; [|split]]]]]]].
  - apply (proj1 (unresolved_template_kept no_ext sample_cfg "https://x.test/list")).
    left. reflexivity.
  - apply (proj1 (unresolved_template_kept no_ext sample_cfg
                    "https://x.test/search?y={jahr}&k={km}")).
    right. left.
    exact (unknown_field sample_cfg [PLit "https://x.test/search?y="] "jahr" "&k={km}"
             eq_refl eq_refl eq_refl).
  - apply (proj1 (unresolved_template_kept no_ext sample_cfg
                    "https://x.test/?y={year}&c={}")).
    right. left.
    exact (unknown_field sample_cfg [PLit "https://x.test/?y="; PField Year; PLit "&c="]
             "" "" eq_refl eq_refl eq_refl).
  - apply (proj1 (unresolved_template_kept no_ext sample_cfg
                    "https://x.test/?y={year}&k=}")).
    right. left.
    exact (single_closing sample_cfg [PLit "https://x.test/?y="; PField Year; PLit "&k="]
             "" eq_refl eq_refl).
  - apply (proj1 (unresolved_template_kept no_ext sample_cfg "https://x.test/?y={year")).
    right. left.
    exact (unclosed_opening sample_cfg [PLit "https://x.test/?y="] "year"
             eq_refl eq_refl eq_refl).
  - apply (proj1 (unresolved_template_kept no_ext sample_cfg "https://x.test/?q={{a}}{")).
    right. left.
    exact (unclosed_opening sample_cfg [PLit "https://x.test/?q="; POpen; PLit "a"; PClose]
             "" eq_refl eq_refl eq_refl).
  - apply (proj1 (unresolved_template_kept no_ext sample_cfg
                    "https://x.test/?y={year}&k={km{}")).
    right. left.
    exact (brace_in_field sample_cfg [PLit "https://x.test/?y="; PField Year; PLit "&k="]
             "km" "}" eq_refl eq_refl eq_refl).
  - apply (proj1 (proj2 (unresolved_template_kept no_ext sample_cfg
                           "https://x.test/?y={year"))).
    exact (unclosed_opening sample_cfg [PLit "https://x.test/?y="] "year"
             eq_refl eq_refl eq_refl).
  - exact (proj2 (proj2 (unresolved_template_kept no_ext sample_cfg ""))
             [PLit "https://x.test/?q="; POpen; PLit "a"; PClose; PLit "&y="; PField Year]
             eq_refl).
Defined.


Lemma parse_list_only_separators_witness :
  parse_list PyStr.ascii_strip (fun _ => Some " , ,") "KEYWORDS" ["unfall"] = [].
Proof.
  apply (parse_list_only_separators PyStr.ascii_strip (fun _ => Some " , ,")
           "KEYWORDS" " , ," ["unfall"] ascii_strip_blank);
    reflexivity.
Defined.

Lemma parse_list_join_witness :
  parse_list PyStr.ascii_strip (fun _ => Some (PyStr.join "," ["BMW 320d"; "Audi A4"]))
    "CAR_BRANDS_MODELS" []
  = ["BMW 320d"; "Audi A4"].
Proof.
  apply (parse_list_join PyStr.ascii_strip
           (fun _ => Some (PyStr.join "," ["BMW 320d"; "Audi A4"]))
           "CAR_BRANDS_MODELS" ["BMW 320d"; "Audi A4"] []).
  - discriminate.
  - repeat constructor.
  - reflexivity.
Defined.


Lemma detect_site_label_host_only_witness :
  detect_site_label "https://suchen.mobile.de/fahrzeuge/autoscout24?x=willhaben"
  = Some "mobile.de"
  /\ detect_site_label "https://example.com/mobile.de/list" = Some "example.com".
Proof.
  split.
  - apply (detect_site_label_host_only "https:" "suchen.mobile.de"
             "/fahrzeuge/autoscout24?x=willhaben"); [reflexivity | reflexivity|].
    right. now exists "fahrzeuge/autoscout24?x=willhaben".
  - apply (detect_site_label_host_only "https:" "example.com" "/mobile.de/list");
      [reflexivity | reflexivity|].
    right. now exists "mobile.de/list".
Defined.

Lemma qualifies_case_insensitive_witness :
  qualifies PyStr.ascii_lower sample_cfg "AUDI a4" "unFALL"
  = qualifies PyStr.ascii_lower shout_cfg "audi A4" "Unfall".
Proof.
  apply (qualifies_case_insensitive PyStr.ascii_lower sample_cfg shout_cfg
           "AUDI a4" "unFALL" "audi A4" "Unfall");
    reflexivity.
Defined.

Lemma qualifies_monotone_witness :
  qualifies PyStr.ascii_lower sample_cfg "Audi A4 Avant" "Scheckheft gepflegt" = true.
Proof.
  apply (qualifies_monotone PyStr.ascii_lower brands_only_cfg sample_cfg
           "Audi A4 Avant" "Scheckheft gepflegt").
  - intros b [<- | []]. right. left. reflexivity.
  - intros k [].
  - reflexivity.
Defined.

Lemma run_all_sends_fail_witness :
  map att_ok (res_attempts (run_once PyStr.ascii_lower PyStr.ascii_strip sample_cfg
                              sample_clock (fun _ => gw_down) None sample_founds))
  = [false; false; false].
Proof.
  rewrite (proj1 (run_all_sends_fail PyStr.ascii_lower PyStr.ascii_strip sample_cfg
                    sample_clock (fun _ => gw_down) None sample_founds
                    (or_intror (or_intror (or_introl (fun _ _ => eq_refl))))
                    eq_refl)).
  reflexivity.
Defined.

Lemma run_all_sends_ok_witness :
  map (fun a => nm_link (att_match a))
      (res_attempts (run_once PyStr.ascii_lower PyStr.ascii_strip sample_cfg sample_clock
                       (fun _ => gw_ok) None sample_founds))
  = ["https://s/a"].
Proof.
  rewrite (proj1 (run_all_sends_ok PyStr.ascii_lower PyStr.ascii_strip sample_cfg
                    sample_clock (fun _ => gw_ok) None sample_founds
                    (fun _ _ => eq_refl))).
  reflexivity.
Defined.

Lemma run_keeps_keys_unique_witness :
  pk_unique (res_db (run_once PyStr.ascii_lower PyStr.ascii_strip sample_cfg sample_clock
                       gw_flaky (Some [sample_row]) sample_founds)) = true.
Proof.
  apply (run_keeps_keys_unique PyStr.ascii_lower PyStr.ascii_strip sample_cfg sample_clock
           gw_flaky (Some [sample_row]) sample_founds).
  reflexivity.
Defined.

Lemma run_without_phrases_witness :
  res_all_new (run_once PyStr.ascii_lower PyStr.ascii_strip quiet_cfg sample_clock
                 gw_flaky None sample_founds) = [].
Proof.
  rewrite (run_without_phrases PyStr.ascii_lower PyStr.ascii_strip quiet_cfg sample_clock
             gw_flaky None sample_founds eq_refl eq_refl).
  reflexivity.
Defined.

Lemma escaped_braces_collapse_witness :
  resolve_url no_ext sample_cfg "https://x.test/?f={{y:{year}}}&k={km}"
  = "https://x.test/?f={y:2020}&k=150000".
Proof.
  exact (escaped_braces_collapse no_ext sample_cfg
           [PLit "https://x.test/?f="; POpen; PLit "y:"; PField Year; PClose;
            PLit "&k="; PField Km] eq_refl).
Defined.

Lemma unknown_field_voids_substitution_witness :
  resolve_url no_ext sample_cfg "https://x.test/?y={year}&c={color}&k={km}"
  = "https://x.test/?y={year}&c={color}&k={km}".
Proof.
  exact (unknown_field_voids_substitution no_ext sample_cfg
           [PLit "https://x.test/?y="; PField Year; PLit "&c="] "color" "&k={km}"
           eq_refl eq_refl eq_refl).
Defined.

Lemma scrape_unknown_site_witness :
  (List.length (scrape_loaded PyStr.ascii_strip "example.com" sample_page) <= 200)%nat
  /\ scrape_loaded PyStr.ascii_strip "example.com" sample_page
     = [ {| card_site := "example.com"; card_title := "Audi A4 Unfall";
            card_link := Some "https://example.com/car/1"; card_price := "";
            card_desc := " Audi A4 Unfall " |} ].
Proof.
  assert (Hun : ~ In "example.com" known_labels) by (simpl; intuition discriminate).
  destruct (scrape_unknown_site PyStr.ascii_strip "example.com" sample_page Hun)
    as [E [_ Hlen]].
  split; [exact Hlen|]. rewrite E. reflexivity.
Defined.

Lemma failed_site_skipped_witness :
  run_once PyStr.ascii_lower PyStr.ascii_strip sample_cfg sample_clock gw_flaky None
    ([[card_a1]] ++ scrape_found PyStr.ascii_strip driver_down
                      "https://www.mobile.de/s?y=2020" :: [[card_bmw]])%list
  = run_once PyStr.ascii_lower PyStr.ascii_strip sample_cfg sample_clock gw_flaky None
      ([[card_a1]] ++ [[card_bmw]])%list.
Proof.
  apply (failed_site_skipped PyStr.ascii_lower PyStr.ascii_strip sample_cfg sample_clock
           gw_flaky None driver_down "https://www.mobile.de/s?y=2020"
           [[card_a1]] [[card_bmw]]).
  left. reflexivity.
Defined.
